(** * Email autoconfiguration lookup (autoconfig.py)

    A shallow embedding of [ServerConfig] and [ClientConfig] from
    [src/autoconfig.py], with the library calls the module relies on:
    [urllib.parse.urlsplit] (CPython 3.11), [requests.get],
    [untangle.parse] and the built-in [str] and [int] operations.

    Conventions.
    - A Python [str] is a Rocq [string]; a character is a code point below
      U+0100 (Latin-1), which is what [ascii] holds.  [str.lower], NFKC
      normalisation and the white space accepted by [int] are given on that
      range as CPython computes them.
    - A raised exception is the left summand of [Result]; [None] is the
      [None] of [option].
    - [requests.get], [untangle.parse], [os.path] and
      [ipaddress.ip_address] are parameters of the development (section
      variables): the theorems hold for whatever the network, the XML
      parser, the file system and the address parser answer.
    - [untangle.parse] does not only parse: a text that starts with
      [http://] or [https://], or names an existing path, is opened as a
      location.  What it returns is the parameter; what it opens is kept
      in the log of the computation, after the call of [requests.get].
    - Upper-case letters that [str.lower] leaves unchanged exist only
      above U+00FF; [Wide] adds one of them to the strings, for the one
      statement that depends on it. *)

From Stdlib Require Import ZArith NArith String Ascii Bool Lia.
From stdpp Require Import base option list strings gmap.

Open Scope string_scope.

(** ** Exceptions and the error monad *)

(** Exception classes the libraries raise. *)
Inductive library_error :=
| ValueError
| AttributeError
| TypeError
| SAXParseException
| RequestException.

(** [Exception msg] is the bare [Exception] raised by
    [ClientConfig.__init__]; everything else comes from a library. *)
Inductive exception :=
| Exception (msg : string)
| LibraryError (e : library_error).

Definition Result (A : Type) : Type := exception + A.

Definition raise {A} (e : library_error) : Result A := inl (LibraryError e).

#[global] Instance Result_ret : MRet Result := fun _ a => inr a.
#[global] Instance Result_bind : MBind Result := fun _ _ f m =>
  match m with
  | inl e => inl e
  | inr a => f a
  end.

(** ** Built-in string operations *)

Module Str.

Definition code (c : ascii) : N := N_of_ascii c.

(** [c in s] *)
Fixpoint contains (s : string) (c : ascii) : bool :=
  match s with
  | EmptyString => false
  | String a s' => Ascii.eqb a c || contains s' c
  end.

(** [s.startswith(p)] *)
Definition startswith (s p : string) : bool := String.prefix p s.

(** [s[n:]] *)
Fixpoint drop (n : nat) (s : string) : string :=
  match n, s with
  | O, _ => s
  | S _, EmptyString => EmptyString
  | S k, String _ s' => drop k s'
  end.

(** [s[:n]] *)
Fixpoint take (n : nat) (s : string) : string :=
  match n, s with
  | O, _ => EmptyString
  | S _, EmptyString => EmptyString
  | S k, String a s' => String a (take k s')
  end.

(** [s[start:stop]] for non-negative indices *)
Definition slice (s : string) (start stop : nat) : string :=
  take (stop - start) (drop start s).

(** [s.find(c, start)] for a one-character [c]; [None] stands for [-1]. *)
Fixpoint find (s : string) (c : ascii) (start : nat) : option nat :=
  match s with
  | EmptyString => None
  | String a s' =>
      match start with
      | O => if Ascii.eqb a c then Some O else option_map S (find s' c O)
      | S k => option_map S (find s' c k)
      end
  end.

(** [s.lstrip(chars)], [chars] given as a predicate *)
Fixpoint lstrip (chars : ascii -> bool) (s : string) : string :=
  match s with
  | EmptyString => EmptyString
  | String a s' => if chars a then lstrip chars s' else s
  end.

(** [s.rstrip(chars)] *)
Fixpoint rstrip (chars : ascii -> bool) (s : string) : string :=
  match s with
  | EmptyString => EmptyString
  | String a s' =>
      match rstrip chars s' with
      | EmptyString => if chars a then EmptyString else String a EmptyString
      | r => String a r
      end
  end.

(** [s.replace(b, "")] for a one-character [b] *)
Fixpoint remove (b : ascii) (s : string) : string :=
  match s with
  | EmptyString => EmptyString
  | String a s' => if Ascii.eqb a b then remove b s' else String a (remove b s')
  end.

(** [s.partition(sep)]: the middle component is [true] when [sep] was
    found (Python returns [sep] itself there, and [""] otherwise). *)
Fixpoint partition (s : string) (sep : ascii) : string * bool * string :=
  match s with
  | EmptyString => (EmptyString, false, EmptyString)
  | String a s' =>
      if Ascii.eqb a sep then (EmptyString, true, s')
      else let '(h, found, t) := partition s' sep in (String a h, found, t)
  end.

(** [s.rpartition(sep)]: when [sep] is absent the result is
    [("", "", s)]. *)
Fixpoint rpartition (s : string) (sep : ascii) : string * bool * string :=
  match s with
  | EmptyString => (EmptyString, false, EmptyString)
  | String a s' =>
      match rpartition s' sep with
      | (h, true, t) => (String a h, true, t)
      | (_, false, _) =>
          if Ascii.eqb a sep then (EmptyString, true, s')
          else (EmptyString, false, String a s')
      end
  end.

(** Upper-case letters below U+0100: A-Z, and U+00C0-U+00DE without the
    multiplication sign U+00D7. *)
Definition isupper (c : ascii) : bool :=
  let n := code c in
  ((65 <=? n) && (n <=? 90) ||
   (192 <=? n) && (n <=? 222) && negb (n =? 215))%N.

Definition lower_char (c : ascii) : ascii :=
  if isupper c then ascii_of_N (code c + 32) else c.

(** [s.lower()] *)
Fixpoint lower (s : string) : string :=
  match s with
  | EmptyString => EmptyString
  | String a s' => String (lower_char a) (lower s')
  end.

(** [s.isascii()] *)
Fixpoint isascii (s : string) : bool :=
  match s with
  | EmptyString => true
  | String a s' => (code a <? 128)%N && isascii s'
  end.

(** [c.isascii() and c.isalpha()] *)
Definition is_ascii_alpha (c : ascii) : bool :=
  let n := code c in
  ((65 <=? n) && (n <=? 90) || (97 <=? n) && (n <=? 122))%N.

(** [sep.join(parts)] *)
Fixpoint join (sep : string) (parts : list string) : string :=
  match parts with
  | [] => EmptyString
  | [p] => p
  | p :: rest => p +:+ sep +:+ join sep rest
  end.

End Str.

(** ** urllib.parse.urlsplit *)

Record SplitResult := mkSplitResult {
  scheme : string;
  netloc : string;
  path : string;
  query : string;
  fragment : string
}.

(** Characters valid in scheme names *)
Definition scheme_chars : string :=
  "abcdefghijklmnopqrstuvwxyzABCDEFGHIJKLMNOPQRSTUVWXYZ0123456789+-.".

(** [_WHATWG_C0_CONTROL_OR_SPACE] is the string of the code points 0 to
    0x20; membership in it is this test. *)
Definition _WHATWG_C0_CONTROL_OR_SPACE (c : ascii) : bool :=
  (Str.code c <=? 32)%N.

(** [_UNSAFE_URL_BYTES_TO_REMOVE = ['\t', '\r', '\n']] *)
Definition _UNSAFE_URL_BYTES_TO_REMOVE : list ascii :=
  [ascii_of_N 9; ascii_of_N 13; ascii_of_N 10].

Definition remove_unsafe (url : string) : string :=
  fold_left (fun url b => Str.remove b url) _UNSAFE_URL_BYTES_TO_REMOVE url.

Definition _splitnetloc (url : string) (start : nat) : string * string :=
  let delim :=
    fold_left
      (fun delim c =>
         match Str.find url c start with
         | Some wdelim => Nat.min delim wdelim
         | None => delim
         end)
      ["/"; "?"; "#"]%char (String.length url) in
  (Str.slice url start delim, Str.drop delim url).

(** NFKC of one code point below U+0100 (the code points that NFKC
    changes, and the identity elsewhere); on this range NFKC acts character
    by character. *)
Definition nfkc_char (c : ascii) : list N :=
  match Str.code c with
  | 160 => [32] | 168 => [32; 776] | 170 => [97] | 175 => [32; 772]
  | 178 => [50] | 179 => [51] | 180 => [32; 769] | 181 => [956]
  | 184 => [32; 807] | 185 => [49] | 186 => [111]
  | 188 => [49; 8260; 52] | 189 => [49; 8260; 50] | 190 => [51; 8260; 52]
  | n => [n]
  end%N.

Fixpoint code_points (s : string) : list N :=
  match s with
  | EmptyString => []
  | String a s' => Str.code a :: code_points s'
  end.

Fixpoint nfkc (s : string) : list N :=
  match s with
  | EmptyString => []
  | String a s' => nfkc_char a ++ nfkc s'
  end.

Definition _checknetloc (netloc : string) : Result unit :=
  if String.eqb netloc "" || Str.isascii netloc then mret tt
  else
    let n := Str.remove "@" netloc in
    let n := Str.remove ":" n in
    let n := Str.remove "#" n in
    let n := Str.remove "?" n in
    let netloc2 := nfkc n in
    if bool_decide (code_points n = netloc2) then mret tt
    else if existsb (fun c => bool_decide (Str.code c ∈ netloc2))
                    ["/"; "?"; "#"; "@"; ":"]%char
         then raise ValueError
         else mret tt.

(** [re.match(r"\Av[a-fA-F0-9]+\..+\Z", hostname)]: a [v], one or more
    hexadecimal digits, a dot, then one or more characters other than a
    line feed up to the end. *)
Definition is_hex (c : ascii) : bool :=
  Str.contains "abcdefABCDEF0123456789" c.

Fixpoint skip_hex (s : string) : string :=
  match s with
  | String a s' => if is_hex a then skip_hex s' else s
  | EmptyString => EmptyString
  end.

Definition match_ipvfuture (hostname : string) : bool :=
  match hostname with
  | String "v" (String h rest) =>
      is_hex h &&
      match skip_hex rest with
      | String "." (String a tail) =>
          negb (Str.contains (String a tail) (ascii_of_N 10))
      | _ => false
      end
  | _ => false
  end.

Section Urlsplit.

(** [ip_address_is_v6 h] tells whether [ipaddress.ip_address(h)] returns
    an address that is not an [IPv4Address]; when it raises, or returns
    an IPv4 address, the bracketed host is refused. *)
Variable ip_address_is_v6 : string -> bool.

Definition _check_bracketed_host (hostname : string) : Result unit :=
  if Str.startswith hostname "v" then
    if match_ipvfuture hostname then mret tt else raise ValueError
  else
    if ip_address_is_v6 hostname then mret tt else raise ValueError.

Definition _check_bracketed_netloc (netloc : string) : Result unit :=
  let hostname_and_port := (Str.rpartition netloc "@").2 in
  let '(before_bracket, have_open_br, bracketed) :=
    Str.partition hostname_and_port "[" in
  if have_open_br then
    if negb (String.eqb before_bracket "") then raise ValueError
    else
      let '(hostname, _, port) := Str.partition bracketed "]" in
      if negb (String.eqb port "") && negb (Str.startswith port ":")
      then raise ValueError
      else _check_bracketed_host hostname
  else
    let '(hostname, _, port) := Str.partition hostname_and_port ":" in
    _check_bracketed_host hostname.

(** The two bracket tests [urlsplit] runs on a network location. *)
Definition check_brackets (netloc : string) : Result unit :=
  let open := Str.contains netloc "[" in
  let close := Str.contains netloc "]" in
  if (open && negb close) || (close && negb open) then raise ValueError
  else if open && close then _check_bracketed_netloc netloc
  else mret tt.

(** The scheme test of [urlsplit]: [url.find(':')] and the loop over
    [url[:i]]; the default scheme is [''].  *)
Definition split_scheme (url : string) : string * string :=
  match Str.find url ":" 0, url with
  | Some (S i' as i), String u0 _ =>
      if Str.is_ascii_alpha u0
         && forallb (Str.contains scheme_chars)
                    (list_ascii_of_string (Str.take i url))
      then (Str.lower (Str.take i url), Str.drop (i + 1) url)
      else ("", url)
  | _, _ => ("", url)
  end.

(** [if url[:2] == '//': ...] with its bracket tests *)
Definition split_netloc (url : string) : Result (string * string) :=
  if String.eqb (Str.take 2 url) "//" then
    let '(netloc, url) := _splitnetloc url 2 in
    _ ← check_brackets netloc; mret (netloc, url)
  else mret ("", url).

(** [if c in url: url, x = url.split(c, 1)] *)
Definition split_at (url : string) (c : ascii) : string * string :=
  if Str.contains url c then
    let '(u, _, x) := Str.partition url c in (u, x)
  else (url, "").

(** [urlsplit(url)] with the default [scheme=''] and
    [allow_fragments=True]. *)
Definition urlsplit (url : string) : Result SplitResult :=
  let url := Str.lstrip _WHATWG_C0_CONTROL_OR_SPACE url in
  let url := remove_unsafe url in
  let '(scheme, url) := split_scheme url in
  '(netloc, url) ← split_netloc url;
  let '(url, fragment) := split_at url "#" in
  let '(url, query) := split_at url "?" in
  _ ← _checknetloc netloc;
  mret (mkSplitResult scheme netloc url query fragment).

(** ** ClientConfig.fix_url *)

Definition fix_url (domain : string) : Result string :=
  let domain :=
    if negb (Str.startswith domain "http://" || Str.startswith domain "https://")
    then "http://" +:+ domain
    else domain in
  r ← urlsplit domain; mret (netloc r).

End Urlsplit.

(** ** Built-in int *)

(** White space [int] skips around a literal, below U+0100. *)
Definition int_space (c : ascii) : bool :=
  let n := Str.code c in
  ((9 <=? n) && (n <=? 13) || (n =? 32) || (n =? 133) || (n =? 160))%N.

Definition is_digit (c : ascii) : bool :=
  let n := Str.code c in ((48 <=? n) && (n <=? 57))%N.

Definition digit_value (c : ascii) : Z := Z.of_N (Str.code c) - 48.

(** [sys.get_int_max_str_digits()] *)
Definition int_max_str_digits : nat := 4300.

(** The digits of a literal, with single underscores between digits;
    [prev] is the character before, ["_"] at the start so that an empty
    literal and a leading underscore are refused like a doubled one. *)
Fixpoint int_digits (s : string) (prev : ascii) (acc : Z) (n : nat)
  : option (Z * nat) :=
  match s with
  | EmptyString => if Ascii.eqb prev "_" then None else Some (acc, n)
  | String a s' =>
      if is_digit a then int_digits s' a (10 * acc + digit_value a) (S n)
      else if Ascii.eqb a "_" then
        if Ascii.eqb prev "_" then None else int_digits s' a acc n
      else None
  end.

(** [int(s)] for a [str] argument, base 10 *)
Definition int (s : string) : Result Z :=
  let s := Str.rstrip int_space (Str.lstrip int_space s) in
  let '(sign, s) :=
    match s with
    | String "+" r => (1, r)
    | String "-" r => (-1, r)
    | _ => (1, s)
    end%Z in
  match int_digits s "_" 0 0 with
  | Some (v, n) =>
      if (int_max_str_digits <? n)%nat then raise ValueError
      else mret (sign * v)%Z
  | None => raise ValueError
  end.

(** ** untangle *)

(** [untangle.Element]; [_name] is [None] for the root that
    [untangle.parse] returns. *)
#[warning="-register-all"]
Inductive Element := mkElement {
  _name : option string;
  _attributes : gmap string string;
  children : list Element;
  cdata : string
}.

(** What an expression over the parsed document evaluates to: an
    [Element], or a Python list of them. *)
Inductive pyobj :=
| One (e : Element)
| Many (l : list Element).

(** [[x for x in self.children if x._name == key]] *)
Definition child_elements (self : Element) (key : string) : list Element :=
  List.filter (fun x => bool_decide (_name x = Some key)) (children self).

Definition __getattr__ (self : Element) (key : string) : Result pyobj :=
  match child_elements self key with
  | [] => raise AttributeError
  | [x] => mret (One x)
  | matching_children => mret (Many matching_children)
  end.

(** [Element.get_attribute], which [__getitem__] calls: [dict.get] *)
Definition get_attribute (self : Element) (key : string) : option string :=
  _attributes self !! key.

(** [o.key]: a list has none of the attributes read here. *)
Definition getattr (o : pyobj) (key : string) : Result pyobj :=
  match o with
  | One e => __getattr__ e key
  | Many _ => raise AttributeError
  end.

(** [o[key]]: a list refuses a string index. *)
Definition getitem (o : pyobj) (key : string) : Result (option string) :=
  match o with
  | One e => mret (get_attribute e key)
  | Many _ => raise TypeError
  end.

(** [o.cdata] *)
Definition get_cdata (o : pyobj) : Result string :=
  match o with
  | One e => mret (cdata e)
  | Many _ => raise AttributeError
  end.

(** [for attr in o]: [Element.__iter__] yields the element itself. *)
Definition iter (o : pyobj) : list Element :=
  match o with
  | One e => [e]
  | Many l => l
  end.

(** What [os.path] says of a text taken as a path: no such path, a
    regular file, or something else that exists (a directory). *)
Inductive path_kind :=
| NoPath
| RegularFile
| OtherPath.

(** [c.isspace()], below U+0100: what [str.strip()] removes *)
Definition isspace (c : ascii) : bool :=
  let n := Str.code c in
  ((9 <=? n) && (n <=? 13) || (28 <=? n) && (n <=? 32)
   || (n =? 133) || (n =? 160))%N.

(** [untangle.is_url] *)
Definition is_url (s : string) : bool :=
  Str.startswith s "http://" || Str.startswith s "https://".

(** What [untangle.parse(text)] opens with [urllib.request.urlopen]
    before it parses.  A blank text is refused at once.  A text that names
    an existing path or starts with [http://] or [https://] is handed to
    the SAX parser as a location, not as a document: [xml.sax] reads it
    when it is a regular file and opens it as a URL otherwise.  Any other
    text is parsed as the document it is. *)
Definition untangle_opens (kind : path_kind) (text : string) : list string :=
  if String.eqb (Str.lstrip isspace text) "" then []
  else
    match kind with
    | RegularFile => []
    | OtherPath => [text]
    | NoPath => if is_url text then [text] else []
    end.

(** ** requests *)

Record Response := mkResponse {
  status_code : Z;
  text : string
}.

(** [Response.ok]: [raise_for_status] raises for 400 to 599. *)
Definition ok (r : Response) : bool :=
  negb ((400 <=? status_code r) && (status_code r <? 600))%Z.

(** Computations that issue HTTP requests: the state is the list of the
    URLs handed so far to an HTTP client, [requests.get] or
    [urllib.request.urlopen], in the order of the calls. *)
Definition IO (A : Type) : Type := list string -> Result A * list string.

#[global] Instance IO_ret : MRet IO := fun _ a log => (inr a, log).
#[global] Instance IO_bind : MBind IO := fun _ _ f m log =>
  match m log with
  | (inl e, log') => (inl e, log')
  | (inr a, log') => f a log'
  end.

Definition lift {A} (r : Result A) : IO A := fun log => (r, log).

(** [raise e] inside a computation *)
Definition throw {A} (e : exception) : IO A := fun log => (inl e, log).

Definition of_library {A} (r : library_error + A) : Result A :=
  match r with
  | inl e => raise e
  | inr a => mret a
  end.

(** ** ServerConfig and ClientConfig *)

Record ServerConfig := mkServerConfig {
  protocol : option string;
  hostname : string;
  port : Z;
  socket_type : string;
  authentication : string;
  username : string
}.

Record ClientConfig := mkClientConfig {
  domain : string;
  xml : string;
  emailProvider : option string;
  configs : list ServerConfig
}.

#[global] Instance ServerConfig_eq_dec : EqDecision ServerConfig.
Proof. solve_decision. Defined.

(** [VERSION = 1.1], as the f-string prints it *)
Definition VERSION : string := "1.1".
Definition DATABASE_URL : string :=
  "https://autoconfig.thunderbird.net/v" +:+ VERSION.

(** [not x] for [x] a string or [None] *)
Definition not_ (x : option string) : bool :=
  match x with
  | None => true
  | Some s => String.eqb s ""
  end.

(** [_get_config]: the loop over [self.configs], with its early return *)
Fixpoint _get_config_loop (l : list ServerConfig) (protocol_ : string)
  : option ServerConfig :=
  match l with
  | [] => None
  | _config :: rest =>
      if bool_decide (protocol _config = Some (Str.lower protocol_))
      then Some _config
      else _get_config_loop rest protocol_
  end.

Section Resolver.

Variable ip_address_is_v6 : string -> bool.

(** [requests_get url] is what [requests.get(url)] returns or raises. *)
Variable requests_get : string -> library_error + Response.

(** [os_path text] is what [os.path.exists] and [os.path.isfile] say of
    [text]. *)
Variable os_path : string -> path_kind.

(** [untangle_parse text] is what [untangle.parse(text)] returns (the
    root element) or raises, whatever it read to get there: the text
    itself, or the file or URL the text names. *)
Variable untangle_parse : string -> library_error + Element.

Definition get (url : string) : IO Response :=
  fun log => (of_library (requests_get url), (log ++ [url])%list).

Definition request_config (domain : string) : IO (option string) :=
  let config_url := Str.join "/" [DATABASE_URL; domain] in
  response ← get config_url;
  mret (if ok response then Some (text response) else None).

Definition parse_server (attr : Element) : Result ServerConfig :=
  let protocol := get_attribute attr "type" in
  hostname ← getattr (One attr) "hostname" ≫= get_cdata;
  port ← (getattr (One attr) "port" ≫= get_cdata) ≫= int;
  socket_type ← getattr (One attr) "socketType" ≫= get_cdata;
  authentication ← getattr (One attr) "authentication" ≫= get_cdata;
  username ← getattr (One attr) "username" ≫= get_cdata;
  mret (mkServerConfig protocol hostname port socket_type authentication username).

(** The inner loop: one [servers.append] per element. *)
Fixpoint parse_servers (l : list Element) (servers : list ServerConfig)
  : Result (list ServerConfig) :=
  match l with
  | [] => mret servers
  | attr :: rest =>
      server ← parse_server attr;
      parse_servers rest (servers ++ [server])
  end.

(** [parse_config] returns the servers and sets [self.emailProvider];
    both are returned here. *)
Definition parse_config (xml : string)
  : Result (option string * list ServerConfig) :=
  xml ← of_library (untangle_parse xml);
  root ← getattr (One xml) "clientConfig" ≫= (fun o => getattr o "emailProvider");
  emailProvider ←
    (getattr (One xml) "clientConfig" ≫= (fun o => getattr o "emailProvider"))
      ≫= (fun o => getitem o "id");
  incomingServer ← getattr root "incomingServer";
  outgoingServer ← getattr root "outgoingServer";
  servers ← parse_servers (iter incomingServer) [];
  servers ← parse_servers (iter outgoingServer) servers;
  mret (emailProvider, servers).

(** [self.parse_config()] inside a computation: its result, after what
    [untangle.parse] opened. *)
Definition parse_config_IO (xml : string)
  : IO (option string * list ServerConfig) :=
  fun log => (parse_config xml, (log ++ untangle_opens (os_path xml) xml)%list).

Definition __init__ (domain : string) : IO ClientConfig :=
  self_domain ← lift (fix_url ip_address_is_v6 domain);
  self_xml ← request_config self_domain;
  if not_ self_xml then
    throw (Exception ("No configuration file found for '" +:+ domain +:+ "'"))
  else
    '(emailProvider, configs) ← parse_config_IO (default "" self_xml);
    mret (mkClientConfig self_domain (default "" self_xml) emailProvider configs).

Definition _get_config (self : ClientConfig) (protocol : string)
  : option ServerConfig :=
  _get_config_loop (configs self) protocol.

Definition get_config (domain protocol : string) : IO (option ServerConfig) :=
  self ← __init__ domain; mret (_get_config self protocol).

Definition get_protocol (self : ClientConfig) (protocol : string)
  : option ServerConfig :=
  _get_config self protocol.

Definition _get_configs (self : ClientConfig) : list ServerConfig :=
  configs self.

Definition get_configs (domain : string) : IO (list ServerConfig) :=
  self ← __init__ domain; mret (_get_configs self).

End Resolver.

(** ** Notions the statements use *)

(** The delimiters that end a network location *)
Definition is_delim (c : ascii) : bool :=
  Ascii.eqb c "/" || Ascii.eqb c "?" || Ascii.eqb c "#".

(** The characters of [r] before its first delimiter *)
Fixpoint netloc_span (r : string) : string :=
  match r with
  | EmptyString => EmptyString
  | String a r' => if is_delim a then EmptyString else String a (netloc_span r')
  end.

(** The input of [fix_url] without its [http://] or [https://] prefix *)
Definition strip_scheme (domain : string) : string :=
  if Str.startswith domain "http://" then Str.drop 7 domain
  else if Str.startswith domain "https://" then Str.drop 8 domain
  else domain.

(** The checks [urlsplit] runs on the network location it has cut out *)
Definition netloc_checks (ip_address_is_v6 : string -> bool) (n : string)
  : Result unit :=
  _ ← check_brackets ip_address_is_v6 n; _checknetloc n.

(** No tab, carriage return or line feed in [s] *)
Definition unsafe_free (s : string) : Prop :=
  forall b, In b _UNSAFE_URL_BYTES_TO_REMOVE -> Str.contains s b = false.

Definition min_opt (d : nat) (o : option nat) : nat :=
  match o with
  | Some w => Nat.min d w
  | None => d
  end.

(** The scan the specification words describe: the first entry whose
    protocol equals the query when both are lower-cased. *)
Fixpoint lookup_case_insensitive (l : list ServerConfig) (protocol_ : string)
  : option ServerConfig :=
  match l with
  | [] => None
  | c :: rest =>
      if bool_decide (Str.lower <$> protocol c = Some (Str.lower protocol_))
      then Some c
      else lookup_case_insensitive rest protocol_
  end.

(** The URL [request_config] asks for *)
Definition config_url (domain : string) : string :=
  DATABASE_URL +:+ "/" +:+ domain.

(** [self] has exactly one child element named [key]. *)
Definition single (self : Element) (key : string) : bool :=
  match child_elements self key with
  | [_] => true
  | _ => false
  end.

(** The child elements [parse_config] reads from a server element *)
Definition server_fields : list string :=
  ["hostname"; "port"; "socketType"; "authentication"; "username"].

Definition int_ok (s : string) : bool :=
  match int s with
  | inr _ => true
  | inl _ => false
  end.

(** A server element [parse_config] can read: one child of each kind, and
    the port an integer literal. *)
Definition well_formed_server (attr : Element) : bool :=
  forallb (single attr) server_fields &&
  match child_elements attr "port" with
  | [p] => int_ok (cdata p)
  | _ => false
  end.

(** A document [parse_config] can read: one [clientConfig] with one
    [emailProvider], at least one incoming and one outgoing server, and
    every server element readable. *)
Definition well_formed (root : Element) : bool :=
  match child_elements root "clientConfig" with
  | [cc] =>
      match child_elements cc "emailProvider" with
      | [ep] =>
          negb (bool_decide (child_elements ep "incomingServer" = [])) &&
          negb (bool_decide (child_elements ep "outgoingServer" = [])) &&
          forallb well_formed_server
            (child_elements ep "incomingServer" ++ child_elements ep "outgoingServer")%list
      | _ => false
      end
  | _ => false
  end.

(** [parse_server attr] returns [s] *)
Definition reads (attr : Element) (s : ServerConfig) : Prop :=
  parse_server attr = inr s.

(** The server elements of a document in the order [parse_config] visits
    them: the incoming ones, then the outgoing ones. *)
Definition server_elements (root : Element) : list Element :=
  match child_elements root "clientConfig" with
  | [cc] =>
      match child_elements cc "emailProvider" with
      | [ep] =>
          (child_elements ep "incomingServer" ++ child_elements ep "outgoingServer")%list
      | _ => []
      end
  | _ => []
  end.


(** ** Example documents *)

Module Example.

Definition leaf (name text : string) : Element :=
  mkElement (Some name) ∅ [] text.

Definition server (tag : string) (attrs : gmap string string)
           (fields : list Element) : Element :=
  mkElement (Some tag) attrs fields "".

Definition provider (servers : list Element) : Element :=
  mkElement (Some "emailProvider") {["id" := "example.com"]} servers "".

Definition document (servers : list Element) : Element :=
  mkElement None ∅
    [mkElement (Some "clientConfig") {["version" := "1.1"]}
       [provider servers] ""]
    "".

Definition imap_fields : list Element :=
  [leaf "hostname" "imap.example.com"; leaf "port" "993";
   leaf "socketType" "ssl"; leaf "authentication" "password-cleartext";
   leaf "username" "%EMAILADDRESS%"].

Definition smtp : Element :=
  server "outgoingServer" {["type" := "smtp"]}
    [leaf "hostname" "smtp.example.com"; leaf "port" "587";
     leaf "socketType" "starttls"; leaf "authentication" "password-cleartext";
     leaf "username" "%EMAILADDRESS%"].

Definition smtp_xml : string :=
  "<outgoingServer type='smtp'><hostname>smtp.example.com</hostname>" +:+
  "<port>587</port><socketType>starttls</socketType>" +:+
  "<authentication>password-cleartext</authentication>" +:+
  "<username>%EMAILADDRESS%</username></outgoingServer>".

Definition imap_fields_xml : string :=
  "<hostname>imap.example.com</hostname><port>993</port>" +:+
  "<socketType>ssl</socketType>" +:+
  "<authentication>password-cleartext</authentication>" +:+
  "<username>%EMAILADDRESS%</username>".

Definition document_xml (servers : string) : string :=
  "<clientConfig version='1.1'><emailProvider id='example.com'>" +:+
  servers +:+ "</emailProvider></clientConfig>".

(** One incoming IMAP server and one outgoing SMTP server *)
Definition mail_xml : string :=
  document_xml ("<incomingServer type='imap'>" +:+ imap_fields_xml +:+
                "</incomingServer>" +:+ smtp_xml).
Definition mail : Element :=
  document [server "incomingServer" {["type" := "imap"]} imap_fields; smtp].

(** The incoming server typed [IMAP] *)
Definition upper_xml : string :=
  document_xml ("<incomingServer type='IMAP'>" +:+ imap_fields_xml +:+
                "</incomingServer>" +:+ smtp_xml).
Definition upper : Element :=
  document [server "incomingServer" {["type" := "IMAP"]} imap_fields; smtp].

(** No outgoing server at all *)
Definition incoming_only_xml : string :=
  document_xml ("<incomingServer type='imap'>" +:+ imap_fields_xml +:+
                "</incomingServer>").
Definition incoming_only : Element :=
  document [server "incomingServer" {["type" := "imap"]} imap_fields].

(** The incoming server without its [type] attribute *)
Definition no_type_xml : string :=
  document_xml ("<incomingServer>" +:+ imap_fields_xml +:+
                "</incomingServer>" +:+ smtp_xml).
Definition no_type : Element :=
  document [server "incomingServer" ∅ imap_fields; smtp].

(** The incoming server without its [port] child *)
Definition no_port_xml : string :=
  document_xml ("<incomingServer type='imap'>" +:+
                "<hostname>imap.example.com</hostname>" +:+
                "</incomingServer>" +:+ smtp_xml).
Definition no_port : Element :=
  document [server "incomingServer" {["type" := "imap"]}
              [leaf "hostname" "imap.example.com"]; smtp].

Definition documents : list (string * string * Element) :=
  [("example.com", mail_xml, mail);
   ("upper.example", upper_xml, upper);
   ("incoming.example", incoming_only_xml, incoming_only);
   ("notype.example", no_type_xml, no_type);
   ("noport.example", no_port_xml, no_port)].

(** A database that serves the documents above, answers
    [empty.example] with status 200 and an empty body, and anything else
    with 404. *)
Definition requests_get (url : string) : library_error + Response :=
  if String.eqb url (config_url "empty.example") then inr (mkResponse 200 "")
  else
    match List.find (fun d => String.eqb url (config_url d.1.1)) documents with
    | Some d => inr (mkResponse 200 d.1.2)
    | None => inr (mkResponse 404 "Not Found")
    end.

(** The XML parser on the texts above; any other text is taken as not
    well-formed. *)
Definition untangle_parse (text : string) : library_error + Element :=
  match List.find (fun d => String.eqb text d.1.2) documents with
  | Some d => inr d.2
  | None => inl SAXParseException
  end.

(** No bracketed host among the examples *)
Definition ip_address_is_v6 (_ : string) : bool := false.

(** No text of the examples names a path. *)
Definition os_path (_ : string) : path_kind := NoPath.

Definition imap_config : ServerConfig :=
  mkServerConfig (Some "imap") "imap.example.com" 993 "ssl"
                 "password-cleartext" "%EMAILADDRESS%".

Definition smtp_config : ServerConfig :=
  mkServerConfig (Some "smtp") "smtp.example.com" 587 "starttls"
                 "password-cleartext" "%EMAILADDRESS%".

Definition upper_config : ServerConfig :=
  mkServerConfig (Some "IMAP") "imap.example.com" 993 "ssl"
                 "password-cleartext" "%EMAILADDRESS%".

Definition untyped_config : ServerConfig :=
  mkServerConfig None "imap.example.com" 993 "ssl"
                 "password-cleartext" "%EMAILADDRESS%".

(** What [ClientConfig("example.com")] is with this database *)
Definition mail_client : ClientConfig :=
  mkClientConfig "example.com" mail_xml (Some "example.com")
                 [imap_config; smtp_config].

Definition upper_client : ClientConfig :=
  mkClientConfig "upper.example" upper_xml (Some "example.com")
                 [upper_config; smtp_config].

Definition untyped_client : ClientConfig :=
  mkClientConfig "notype.example" no_type_xml (Some "example.com")
                 [untyped_config; smtp_config].

End Example.

(** ** The scan of _get_config over any representation of str *)

Section Scan.

Context {S C : Type} `{EqDecision S}.

(** [str.lower] and the [protocol] field *)
Variable lower : S -> S.
Variable protocol_of : C -> option S.

(** The loop of [_get_config]: [_config.protocol == protocol.lower()],
    with the early return. *)
Fixpoint scan (l : list C) (protocol_ : S) : option C :=
  match l with
  | [] => None
  | _config :: rest =>
      if bool_decide (protocol_of _config = Some (lower protocol_))
      then Some _config
      else scan rest protocol_
  end.

End Scan.

(** ** Strings beyond U+00FF *)

(** The strings of the development with one more character, U+03D2 (GREEK
    UPSILON WITH HOOK SYMBOL): a letter of category Lu, for which
    [str.isupper] is true and which [str.lower] leaves as it is, like the
    other upper-case letters that have no lower-case form. *)
Module Wide.

Inductive char :=
| Latin1 (a : ascii)
| UpsilonHook.

#[global] Instance char_eq_dec : EqDecision char.
Proof. solve_decision. Defined.

Definition str : Type := list char.


(** [c.isupper()] *)
Definition isupper (c : char) : bool :=
  match c with
  | Latin1 a => Str.isupper a
  | UpsilonHook => true
  end.

Definition lower_char (c : char) : char :=
  match c with
  | Latin1 a => Latin1 (Str.lower_char a)
  | UpsilonHook => UpsilonHook
  end.

(** [s.lower()] *)
Definition lower (s : str) : str := map lower_char s.


Record ServerConfig := mkServerConfig {
  protocol : option str;
  hostname : str;
  port : Z;
  socket_type : str;
  authentication : str;
  username : str
}.

(** [_get_config] on [self.configs] *)
Definition _get_config_loop (l : list ServerConfig) (protocol_ : str)
  : option ServerConfig :=
  scan lower protocol l protocol_.


End Wide.

(** ** The statements of the specification that the code does not meet *)

Section Stated.

Variable ip : string -> bool.
Variable requests_get : string -> library_error + Response.
Variable os_path : string -> path_kind.
Variable untangle_parse : string -> library_error + Element.

(** "a linear case-insensitive scan ... for the first entry whose
    protocol field matches" *)
Definition lookup_is_case_insensitive (domain p : string) : Prop :=
  forall log log' self,
    __init__ ip requests_get os_path untangle_parse domain log = (inr self, log') ->
    (get_config ip requests_get os_path untangle_parse domain p log).1
    = inr (lookup_case_insensitive (configs self) p).



End Stated.


(** ** ServerConfig.__str__ and ServerConfig.__repr__ *)

Definition digit_char (d : Z) : ascii := ascii_of_N (Z.to_N (48 + d)).

(** The decimal digits of [n], for [0 <= n], most significant first and in
    front of [acc]; [fuel] bounds the number of digits. *)
Fixpoint str_digits (fuel : nat) (n : Z) (acc : string) : string :=
  match fuel with
  | O => acc
  | S fuel' =>
      let acc := String (digit_char (n mod 10)) acc in
      if (n / 10 =? 0)%Z then acc else str_digits fuel' (n / 10) acc
  end.

Definition str_nat (n : Z) : string :=
  str_digits (S (Z.to_nat (Z.log2 n))) n "".

(** [str(z)] for an [int], which is what an f-string field prints: the
    digits, a minus sign in front for a negative number, and [ValueError]
    past [sys.get_int_max_str_digits()] digits. *)
Definition str_int (z : Z) : Result string :=
  let digits := str_nat (Z.abs z) in
  if (int_max_str_digits <? String.length digits)%nat then raise ValueError
  else mret (if (z <? 0)%Z then String "-" digits else digits).

(** [ServerConfig.__slots__] *)
Definition __slots__ : list string :=
  ["protocol"; "hostname"; "port"; "socket_type"; "authentication"; "username"].

(** [f"{getattr(self, slot)}"]: a string prints as itself, [None] as
    [None], the port through [str]. *)
Definition format_slot (self : ServerConfig) (slot : string) : Result string :=
  if String.eqb slot "protocol" then mret (default "None" (protocol self))
  else if String.eqb slot "hostname" then mret (hostname self)
  else if String.eqb slot "port" then str_int (port self)
  else if String.eqb slot "socket_type" then mret (socket_type self)
  else if String.eqb slot "authentication" then mret (authentication self)
  else if String.eqb slot "username" then mret (username self)
  else raise AttributeError.

(** [[f"{slot}='{getattr(self, slot)}'" for slot in slots]] *)
Fixpoint format_slots (self : ServerConfig) (slots : list string)
  : Result (list string) :=
  match slots with
  | [] => mret []
  | slot :: rest =>
      v ← format_slot self slot;
      args ← format_slots self rest;
      mret ((slot +:+ "='" +:+ v +:+ "'") :: args)
  end.

Definition __str__ (self : ServerConfig) : Result string :=
  p ← str_int (port self);
  mret (hostname self +:+ ":" +:+ p).

Definition __repr__ (self : ServerConfig) : Result string :=
  parts ← format_slots self __slots__;
  let args := Str.join ", " parts in
  mret ("ServerConfig" +:+ "(" +:+ args +:+ ")").

(** The value of a string of decimal digits read after [acc] *)
Fixpoint digits_value (s : string) (acc : Z) : Z :=
  match s with
  | EmptyString => acc
  | String a s' => digits_value s' (10 * acc + digit_value a)
  end.

(** Every character of [s] is a decimal digit. *)
Fixpoint all_digits (s : string) : bool :=
  match s with
  | EmptyString => true
  | String a s' => is_digit a && all_digits s'
  end.

(** A document with two [emailProvider] elements, and a parser that
    returns a given document for every text *)
Definition two_providers : Element :=
  mkElement None ∅
    [mkElement (Some "clientConfig") ∅
       [Example.provider [Example.smtp]; Example.provider [Example.smtp]] ""]
    "".

Definition parse_as (root : Element) (_ : string) : library_error + Element :=
  inr root.

(** A server element without its [port] child *)
Definition portless : Element :=
  Example.server "incomingServer" {["type" := "imap"]}
                 [Example.leaf "hostname" "imap.example.com"].

(** A database that answers every request with a URL for a body *)
Definition url_body : string := "http://elsewhere.example/config.xml".

Definition serves_url (_ : string) : library_error + Response :=
  inr (mkResponse 200 url_body).

(** A database that cannot be reached *)
Definition offline (_ : string) : library_error + Response :=
  inl RequestException.

(** * Properties *)

(** Closes an equivalence whose two sides are both absurd. *)
Ltac refute_both :=
  cbn; rewrite ?andb_false_r;
  split; [intros [? ?]; discriminate | discriminate].

(** ** Strings *)

Lemma append_String (a : ascii) (p s : string) :
  String a p +:+ s = String a (p +:+ s).
Proof. reflexivity. Qed.

Lemma startswith_app (s p : string) :
  Str.startswith s p = true -> s = p +:+ Str.drop (String.length p) s.
Proof.
  unfold Str.startswith. revert s.
  induction p as [|a p IH]; intros s H; [reflexivity|].
  destruct s as [|b s]; simpl in H; [discriminate|].
  destruct (ascii_dec a b) as [E|]; [subst b|discriminate].
  rewrite append_String. simpl. f_equal. now apply IH.
Qed.

Lemma remove_absent (b : ascii) (s : string) :
  Str.contains s b = false -> Str.remove b s = s.
Proof.
  induction s as [|a s IH]; simpl; [reflexivity|].
  intros H. apply orb_false_iff in H as [-> H]. f_equal. auto.
Qed.

Lemma contains_remove (b c : ascii) (s : string) :
  Str.contains (Str.remove b s) c = Str.contains s c && negb (Ascii.eqb b c).
Proof.
  induction s as [|a s IH]; simpl; [reflexivity|].
  destruct (Ascii.eqb_spec a b) as [->|Hab]; simpl; rewrite IH.
  - destruct (Ascii.eqb b c); simpl; [now rewrite andb_false_r | reflexivity].
  - destruct (Ascii.eqb_spec a c) as [->|]; simpl; [|reflexivity].
    destruct (Ascii.eqb_spec b c); [congruence|]. reflexivity.
Qed.

Lemma netloc_span_delim (r : string) (c : ascii) :
  is_delim c = true -> Str.contains (netloc_span r) c = false.
Proof.
  intros Hc. induction r as [|a r IH]; simpl; [reflexivity|].
  destruct (is_delim a) eqn:Ha; simpl; [reflexivity|].
  rewrite IH, orb_false_r.
  destruct (Ascii.eqb_spec a c); [congruence | reflexivity].
Qed.

Lemma netloc_span_contains (r : string) (c : ascii) :
  Str.contains (netloc_span r) c = true -> Str.contains r c = true.
Proof.
  induction r as [|a r IH]; simpl; [discriminate|].
  destruct (is_delim a); simpl; [discriminate|].
  intros H. apply orb_true_iff in H as [->|H]; [reflexivity|].
  rewrite IH by assumption. apply orb_true_r.
Qed.

Lemma netloc_span_id (n : string) :
  (forall c, is_delim c = true -> Str.contains n c = false) -> netloc_span n = n.
Proof.
  induction n as [|a n IH]; simpl; intros H; [reflexivity|].
  destruct (is_delim a) eqn:Ha.
  - specialize (H a Ha). now rewrite Ascii.eqb_refl in H.
  - f_equal. apply IH. intros c Hc. specialize (H c Hc).
    now apply orb_false_iff in H.
Qed.

Lemma take_netloc_span (r : string) :
  Str.take (String.length (netloc_span r)) r = netloc_span r.
Proof.
  induction r as [|a r IH]; simpl; [reflexivity|].
  destruct (is_delim a); simpl; [reflexivity | now rewrite IH].
Qed.

(** ** _splitnetloc *)

Lemma min_opt_S (d : nat) (o : option nat) :
  min_opt (S d) (option_map S o) = S (min_opt d o).
Proof. destruct o; reflexivity. Qed.

Lemma find_first_delim (r : string) :
  min_opt (min_opt (min_opt (String.length r) (Str.find r "/" 0))
                   (Str.find r "?" 0)) (Str.find r "#" 0)
  = String.length (netloc_span r).
Proof.
  induction r as [|a r IH]; [reflexivity|].
  cbn [netloc_span]. unfold is_delim.
  destruct (Ascii.eqb_spec a "/") as [->|H1].
  { simpl. destruct (Str.find r "?" 0), (Str.find r "#" 0); reflexivity. }
  destruct (Ascii.eqb_spec a "?") as [->|H2].
  { simpl. destruct (Str.find r "/" 0), (Str.find r "#" 0); simpl; lia. }
  destruct (Ascii.eqb_spec a "#") as [->|H3].
  { simpl. destruct (Str.find r "/" 0), (Str.find r "?" 0); simpl; lia. }
  cbn [orb String.length Str.find].
  apply Ascii.eqb_neq in H1, H2, H3. rewrite H1, H2, H3.
  rewrite !min_opt_S. now rewrite IH.
Qed.

Lemma _splitnetloc_slashes (r : string) :
  (_splitnetloc ("//" +:+ r) 2).1 = netloc_span r.
Proof.
  unfold _splitnetloc, Str.slice. cbn [fold_left fst].
  change ("//" +:+ r) with (String "/" (String "/" r)).
  cbn [Str.find String.length Str.drop].
  change (Str.take
            (min_opt (min_opt (min_opt (S (S (String.length r)))
               (option_map S (option_map S (Str.find r "/" 0))))
               (option_map S (option_map S (Str.find r "?" 0))))
               (option_map S (option_map S (Str.find r "#" 0))) - 2) r
          = netloc_span r).
  rewrite !min_opt_S, find_first_delim. cbn [Nat.sub].
  rewrite Nat.sub_0_r. apply take_netloc_span.
Qed.

(** ** remove_unsafe *)

Lemma remove_unsafe_free (s : string) : unsafe_free (remove_unsafe s).
Proof.
  intros b Hb. unfold remove_unsafe. cbn [fold_left _UNSAFE_URL_BYTES_TO_REMOVE].
  rewrite !contains_remove.
  cbn in Hb. destruct Hb as [<-|[<-|[<-|[]]]]; cbn;
    now rewrite ?andb_false_r.
Qed.

Lemma remove_unsafe_id (s : string) : unsafe_free s -> remove_unsafe s = s.
Proof.
  intros H. unfold remove_unsafe. cbn [fold_left _UNSAFE_URL_BYTES_TO_REMOVE].
  rewrite (remove_absent (ascii_of_N 9)) by (apply H; cbn; auto).
  rewrite (remove_absent (ascii_of_N 13)) by (apply H; cbn; auto).
  now rewrite (remove_absent (ascii_of_N 10)) by (apply H; cbn; auto).
Qed.

Lemma netloc_span_unsafe_free (r : string) :
  unsafe_free r -> unsafe_free (netloc_span r).
Proof.
  intros H b Hb. specialize (H b Hb).
  destruct (Str.contains (netloc_span r) b) eqn:E; [|reflexivity].
  apply netloc_span_contains in E. congruence.
Qed.

Lemma remove_append (b : ascii) (p r : string) :
  Str.remove b (p +:+ r) = Str.remove b p +:+ Str.remove b r.
Proof.
  induction p as [|a p IH]; [reflexivity|].
  rewrite append_String. cbn [Str.remove].
  destruct (Ascii.eqb a b); [assumption|].
  rewrite append_String. now f_equal.
Qed.

Lemma remove_unsafe_append (p r : string) :
  remove_unsafe (p +:+ r) = remove_unsafe p +:+ remove_unsafe r.
Proof.
  unfold remove_unsafe. cbn [fold_left _UNSAFE_URL_BYTES_TO_REMOVE].
  now rewrite !remove_append.
Qed.

(** ** urlsplit on what fix_url passes to it *)

Section UrlsplitFacts.

Variable ip_address_is_v6 : string -> bool.

Lemma split_netloc_slashes (u : string) :
  split_netloc ip_address_is_v6 ("//" +:+ u)
  = (_ ← check_brackets ip_address_is_v6 (netloc_span u);
     mret (netloc_span u, (_splitnetloc ("//" +:+ u) 2).2)).
Proof.
  unfold split_netloc. rewrite <- (_splitnetloc_slashes u).
  change (Str.take 2 ("//" +:+ u)) with "//". cbn [String.eqb Ascii.eqb].
  change (String.eqb "//" "//") with true. cbn iota.
  now destruct (_splitnetloc ("//" +:+ u) 2).
Qed.

Lemma urlsplit_netloc (p sch r : string) :
  Str.lstrip _WHATWG_C0_CONTROL_OR_SPACE (p +:+ r) = p +:+ r ->
  remove_unsafe p = p ->
  (forall u, split_scheme (p +:+ u) = (sch, "//" +:+ u)) ->
  (x ← urlsplit ip_address_is_v6 (p +:+ r); mret (netloc x))
  = (_ ← netloc_checks ip_address_is_v6 (netloc_span (remove_unsafe r));
     mret (netloc_span (remove_unsafe r))).
Proof.
  intros Hstrip Hp Hsch. unfold urlsplit.
  rewrite Hstrip, remove_unsafe_append, Hp, Hsch, split_netloc_slashes.
  unfold netloc_checks.
  destruct (check_brackets _ _) as [e|[]]; [reflexivity|].
  cbn [mbind Result_bind mret Result_ret].
  destruct (split_at _ "#") as [url fragment].
  destruct (split_at url "?") as [url' query].
  now destruct (_checknetloc _) as [e|[]].
Qed.

Lemma urlsplit_http (r : string) :
  (x ← urlsplit ip_address_is_v6 ("http://" +:+ r); mret (netloc x))
  = (_ ← netloc_checks ip_address_is_v6 (netloc_span (remove_unsafe r));
     mret (netloc_span (remove_unsafe r))).
Proof. now apply (urlsplit_netloc "http://" "http"). Qed.

Lemma urlsplit_https (r : string) :
  (x ← urlsplit ip_address_is_v6 ("https://" +:+ r); mret (netloc x))
  = (_ ← netloc_checks ip_address_is_v6 (netloc_span (remove_unsafe r));
     mret (netloc_span (remove_unsafe r))).
Proof. now apply (urlsplit_netloc "https://" "https"). Qed.

End UrlsplitFacts.

(** ** fix_url *)

Lemma contains_append_l (p t : string) (c : ascii) :
  Str.contains p c = true -> Str.contains (p +:+ t) c = true.
Proof.
  induction p as [|a p IH]; [discriminate|].
  rewrite append_String. cbn [Str.contains].
  intros Hc. apply orb_true_iff in Hc as [->|Hc]; [reflexivity|].
  rewrite IH by assumption. apply orb_true_r.
Qed.

Lemma startswith_contains (s p : string) (c : ascii) :
  Str.startswith s p = true -> Str.contains p c = true -> Str.contains s c = true.
Proof.
  intros Hs Hc. rewrite (startswith_app _ _ Hs). now apply contains_append_l.
Qed.

Lemma no_slash_no_scheme (n : string) :
  Str.contains n "/" = false ->
  Str.startswith n "http://" = false /\ Str.startswith n "https://" = false.
Proof.
  intros H. split.
  - destruct (Str.startswith n "http://") eqn:E; [|reflexivity].
    rewrite (startswith_contains _ _ "/" E) in H; [discriminate | reflexivity].
  - destruct (Str.startswith n "https://") eqn:E; [|reflexivity].
    rewrite (startswith_contains _ _ "/" E) in H; [discriminate | reflexivity].
Qed.

Section FixUrl.

Variable ip : string -> bool.

(** What [fix_url] computes: the network location is the text between
    the scheme prefix and the first ['/'], ['?'] or ['#'], tabs and line
    breaks removed, provided [urlsplit] accepts it. *)
Lemma fix_url_netloc (domain : string) :
  fix_url ip domain
  = (_ ← netloc_checks ip (netloc_span (remove_unsafe (strip_scheme domain)));
     mret (netloc_span (remove_unsafe (strip_scheme domain)))).
Proof.
  unfold fix_url, strip_scheme.
  destruct (Str.startswith domain "http://") eqn:E1.
  { cbn [orb negb]. rewrite (startswith_app _ _ E1) at 1.
    apply urlsplit_http. }
  destruct (Str.startswith domain "https://") eqn:E2.
  { cbn [orb negb]. rewrite (startswith_app _ _ E2) at 1.
    apply urlsplit_https. }
  cbn [orb negb]. apply urlsplit_http.
Qed.

Lemma fix_url_result (domain n : string) :
  fix_url ip domain = inr n ->
  n = netloc_span (remove_unsafe (strip_scheme domain)) /\
  netloc_checks ip n = inr tt.
Proof.
  rewrite fix_url_netloc.
  destruct (netloc_checks ip _) as [e|[]] eqn:E; [discriminate|].
  cbn. intros [= <-]. auto.
Qed.

Lemma fix_url_fixpoint (n : string) :
  (forall c, is_delim c = true -> Str.contains n c = false) ->
  unsafe_free n ->
  fix_url ip n = (_ ← netloc_checks ip n; mret n).
Proof.
  intros Hd Hu. rewrite fix_url_netloc.
  assert (strip_scheme n = n) as ->.
  { unfold strip_scheme.
    destruct (no_slash_no_scheme n (Hd "/"%char eq_refl)) as [-> ->].
    reflexivity. }
  now rewrite (remove_unsafe_id _ Hu), (netloc_span_id _ Hd).
Qed.

(** C5. [fix_url] is idempotent: applying it to its own result gives that
    result again, and an input it refuses is refused with the same
    exception. *)
Theorem fix_url_idempotent (x : string) :
  (n ← fix_url ip x; fix_url ip n) = fix_url ip x.
Proof.
  destruct (fix_url ip x) as [e|n] eqn:E; [reflexivity|].
  apply fix_url_result in E as [Hn Hc].
  cbn [mbind Result_bind].
  rewrite fix_url_fixpoint, Hc; [reflexivity| |].
  - intros c Hc'. subst n. now apply netloc_span_delim.
  - subst n. apply netloc_span_unsafe_free, remove_unsafe_free.
Qed.

(** C6. [fix_url] maps both [example.com] and [http://example.com/path]
    to [example.com]: an input without [http://] or [https://] gets
    [http://] in front, the result is the network location [urlsplit]
    finds, and that is the input without scheme, path, query and
    fragment. *)
Theorem fix_url_examples :
  fix_url ip "example.com" = inr "example.com" /\
  fix_url ip "http://example.com/path" = inr "example.com" /\
  (forall x,
      fix_url ip x =
        (r ← urlsplit ip
               (if Str.startswith x "http://" || Str.startswith x "https://"
                then x else "http://" +:+ x);
         mret (netloc r))) /\
  (forall x,
      fix_url ip x =
        (_ ← netloc_checks ip (netloc_span (remove_unsafe (strip_scheme x)));
         mret (netloc_span (remove_unsafe (strip_scheme x))))).
Proof.
  split; [reflexivity|]. split; [reflexivity|]. split.
  - intros x. unfold fix_url.
    now destruct (Str.startswith x "http://" || Str.startswith x "https://").
  - apply fix_url_netloc.
Qed.

(** C10. A result of [fix_url] is a bare network location: it holds no
    ['/'], ['?'] or ['#'] and does not start with [http://] or
    [https://]; the empty input gives the empty result. *)
Theorem fix_url_is_netloc (x n : string) :
  fix_url ip x = inr n ->
  Str.contains n "/" = false /\
  Str.contains n "?" = false /\
  Str.contains n "#" = false /\
  Str.startswith n "http://" = false /\
  Str.startswith n "https://" = false /\
  fix_url ip "" = inr "".
Proof.
  intros H. apply fix_url_result in H as [-> _].
  repeat split; try (now apply netloc_span_delim).
  - apply no_slash_no_scheme. now apply netloc_span_delim.
  - apply no_slash_no_scheme. now apply netloc_span_delim.
Qed.

End FixUrl.

(** ** Reading the parsed document *)

Lemma read_field (attr : Element) (key : string) :
  getattr (One attr) key ≫= get_cdata
  = match child_elements attr key with
    | [x] => inr (cdata x)
    | _ => raise AttributeError
    end.
Proof.
  unfold getattr, __getattr__.
  now destruct (child_elements attr key) as [|x [|y l]].
Qed.

Lemma parse_server_well_formed (attr : Element) :
  (exists s, parse_server attr = inr s) <-> well_formed_server attr = true.
Proof.
  unfold parse_server, well_formed_server, server_fields, single, int_ok.
  rewrite !read_field. cbn [forallb].
  destruct (child_elements attr "hostname") as [|h [|? ?]]; try refute_both.
  destruct (child_elements attr "port") as [|p [|? ?]]; try refute_both.
  cbn [mbind Result_bind].
  destruct (int (cdata p)) as [e|z]; try refute_both.
  destruct (child_elements attr "socketType") as [|st [|? ?]]; try refute_both.
  destruct (child_elements attr "authentication") as [|au [|? ?]]; try refute_both.
  destruct (child_elements attr "username") as [|u [|? ?]]; try refute_both.
  split; [reflexivity | intros _; eexists; reflexivity].
Qed.

Lemma int_error (s : string) (e : exception) :
  int s = inl e -> e = LibraryError ValueError.
Proof.
  unfold int.
  destruct (match Str.rstrip int_space (Str.lstrip int_space s) with
            | String "+" r => (1%Z, r)
            | String "-" r => ((-1)%Z, r)
            | _ => (1%Z, Str.rstrip int_space (Str.lstrip int_space s))
            end) as [sign t].
  destruct (int_digits t "_" 0 0) as [[v n]|]; [destruct (_ <? _)%nat|];
    cbn; intros [= <-]; reflexivity.
Qed.

Lemma parse_server_error (attr : Element) (e : exception) :
  parse_server attr = inl e -> exists le, e = LibraryError le.
Proof.
  unfold parse_server. rewrite !read_field.
  destruct (child_elements attr "hostname") as [|h [|? ?]];
    try (intros [= <-]; eauto).
  destruct (child_elements attr "port") as [|p [|? ?]];
    try (intros [= <-]; eauto).
  cbn [mbind Result_bind].
  destruct (int (cdata p)) as [e'|z] eqn:Ei.
  { apply int_error in Ei as ->. intros [= <-]; eauto. }
  destruct (child_elements attr "socketType") as [|st [|? ?]];
    try (intros [= <-]; eauto).
  destruct (child_elements attr "authentication") as [|au [|? ?]];
    try (intros [= <-]; eauto).
  destruct (child_elements attr "username") as [|u [|? ?]];
    try (intros [= <-]; eauto).
Qed.


Lemma parse_servers_inr (l : list Element) (acc r : list ServerConfig) :
  parse_servers l acc = inr r ->
  exists l', r = (acc ++ l')%list /\ Forall2 reads l l'.
Proof.
  revert acc. induction l as [|attr l IH]; intros acc; cbn [parse_servers].
  - intros [= <-]. exists []. split; [now rewrite app_nil_r | constructor].
  - destruct (parse_server attr) as [e|s] eqn:E; cbn [mbind Result_bind];
      [discriminate|].
    intros H. apply IH in H as (l' & -> & HF).
    exists (s :: l'). split; [now rewrite <- app_assoc | now constructor].
Qed.

Lemma parse_servers_intro (l : list Element) (acc l' : list ServerConfig) :
  Forall2 reads l l' -> parse_servers l acc = inr (acc ++ l')%list.
Proof.
  intros HF. revert acc.
  induction HF as [|attr s l l' Hs HF IH]; intros acc; cbn [parse_servers].
  - now rewrite app_nil_r.
  - unfold reads in Hs. rewrite Hs. cbn [mbind Result_bind].
    rewrite IH. now rewrite <- app_assoc.
Qed.

Lemma parse_servers_inl (l : list Element) (acc : list ServerConfig) (e : exception) :
  parse_servers l acc = inl e -> exists attr, In attr l /\ parse_server attr = inl e.
Proof.
  revert acc. induction l as [|attr l IH]; intros acc; cbn [parse_servers];
    [discriminate|].
  destruct (parse_server attr) as [e'|s] eqn:E; cbn [mbind Result_bind].
  - intros [= <-]. exists attr. split; [now left | assumption].
  - intros H. apply IH in H as (a & Ha & He). exists a. split; [now right | assumption].
Qed.

Lemma parse_servers_well_formed (l : list Element) (acc : list ServerConfig) :
  (exists r, parse_servers l acc = inr r) <-> forallb well_formed_server l = true.
Proof.
  revert acc. induction l as [|attr l IH]; intros acc;
    cbn [parse_servers forallb].
  - split; eauto.
  - rewrite andb_true_iff, <- parse_server_well_formed.
    destruct (parse_server attr) as [e|s]; cbn [mbind Result_bind].
    + split; [intros [? ?]; discriminate | intros [[? ?] _]; discriminate].
    + rewrite IH. split; [eauto | tauto].
Qed.

Lemma __getattr___inr (e : Element) (key : string) (o : pyobj) :
  __getattr__ e key = inr o ->
  child_elements e key <> [] /\ iter o = child_elements e key.
Proof.
  unfold __getattr__.
  destruct (child_elements e key) as [|x [|y l]]; [discriminate| |];
    intros [= <-]; split; (discriminate || reflexivity).
Qed.

Lemma __getattr___inl (e : Element) (key : string) (err : exception) :
  __getattr__ e key = inl err ->
  child_elements e key = [] /\ err = LibraryError AttributeError.
Proof.
  unfold __getattr__.
  destruct (child_elements e key) as [|x [|y l]]; [|discriminate..].
  intros [= <-]. auto.
Qed.

(** ** parse_config *)

Section ParseConfig.

Variable untangle_parse : string -> library_error + Element.

(** [parse_config] on a parsed document, case by case *)
Lemma parse_config_tree (t : string) (root : Element) :
  untangle_parse t = inr root ->
  parse_config untangle_parse t
  = match child_elements root "clientConfig" with
    | [] => raise AttributeError
    | [cc] =>
        match child_elements cc "emailProvider" with
        | [] => raise AttributeError
        | [ep] =>
            if bool_decide (child_elements ep "incomingServer" = [])
               || bool_decide (child_elements ep "outgoingServer" = [])
            then raise AttributeError
            else
              servers ← parse_servers (child_elements ep "incomingServer") [];
              servers ← parse_servers (child_elements ep "outgoingServer") servers;
              mret (get_attribute ep "id", servers)
        | _ => raise TypeError
        end
    | _ => raise AttributeError
    end.
Proof.
  intros Hroot. unfold parse_config. rewrite Hroot.
  cbn [of_library mbind Result_bind mret Result_ret getattr].
  unfold __getattr__ at 1 2.
  destruct (child_elements root "clientConfig") as [|cc [|? ?]];
    [reflexivity| |reflexivity].
  cbn [mbind Result_bind mret Result_ret getattr].
  unfold __getattr__ at 1 2.
  destruct (child_elements cc "emailProvider") as [|ep [|? ?]];
    [reflexivity| |reflexivity].
  cbn [mbind Result_bind mret Result_ret getattr getitem].
  destruct (__getattr__ ep "incomingServer") as [e|inc] eqn:Ei.
  { apply __getattr___inl in Ei as [-> ->]. reflexivity. }
  apply __getattr___inr in Ei as [Hi Hinc].
  rewrite (bool_decide_eq_false_2 _ Hi).
  cbn [mbind Result_bind orb].
  destruct (__getattr__ ep "outgoingServer") as [e|out] eqn:Eo.
  { apply __getattr___inl in Eo as [-> ->]. reflexivity. }
  apply __getattr___inr in Eo as [Ho Hout].
  rewrite (bool_decide_eq_false_2 _ Ho).
  cbn [mbind Result_bind]. now rewrite Hinc, Hout.
Qed.

Lemma parse_config_well_formed (t : string) (root : Element) :
  untangle_parse t = inr root ->
  (exists r, parse_config untangle_parse t = inr r) <-> well_formed root = true.
Proof.
  intros Hroot. rewrite (parse_config_tree _ _ Hroot). unfold well_formed.
  destruct (child_elements root "clientConfig") as [|cc [|? ?]];
    try (split; [intros [? ?]; discriminate | discriminate]).
  destruct (child_elements cc "emailProvider") as [|ep [|? ?]];
    try (split; [intros [? ?]; discriminate | discriminate]).
  rewrite forallb_app.
  destruct (bool_decide (child_elements ep "incomingServer" = []));
    [split; [intros [? ?]; discriminate | discriminate]|].
  destruct (bool_decide (child_elements ep "outgoingServer" = []));
    [split; [intros [? ?]; discriminate | discriminate]|].
  cbn [orb negb andb].
  rewrite andb_true_iff,
    <- (parse_servers_well_formed (child_elements ep "incomingServer") []).
  destruct (parse_servers (child_elements ep "incomingServer") []) as [e|l1];
    cbn [mbind Result_bind].
  { split; [intros [? ?]; discriminate | intros [[? ?] _]; discriminate]. }
  rewrite <- (parse_servers_well_formed (child_elements ep "outgoingServer") l1).
  destruct (parse_servers (child_elements ep "outgoingServer") l1) as [e|l2];
    cbn [mbind Result_bind].
  - split; [intros [? ?]; discriminate | intros [_ [? ?]]; discriminate].
  - split; eauto.
Qed.

Lemma parse_config_inr (t : string) (root : Element)
      (id : option string) (servers : list ServerConfig) :
  untangle_parse t = inr root ->
  parse_config untangle_parse t = inr (id, servers) ->
  exists cc ep l1 l2,
    child_elements root "clientConfig" = [cc] /\
    child_elements cc "emailProvider" = [ep] /\
    id = get_attribute ep "id" /\
    Forall2 reads (child_elements ep "incomingServer") l1 /\
    Forall2 reads (child_elements ep "outgoingServer") l2 /\
    servers = (l1 ++ l2)%list.
Proof.
  intros Hroot. rewrite (parse_config_tree _ _ Hroot).
  destruct (child_elements root "clientConfig") as [|cc [|? ?]] eqn:Ecc;
    try discriminate.
  destruct (child_elements cc "emailProvider") as [|ep [|? ?]] eqn:Eep;
    try discriminate.
  destruct (_ || _); [discriminate|].
  destruct (parse_servers (child_elements ep "incomingServer") []) as [e|l1] eqn:E1;
    cbn [mbind Result_bind]; [discriminate|].
  destruct (parse_servers (child_elements ep "outgoingServer") l1) as [e|r] eqn:E2;
    cbn [mbind Result_bind]; [discriminate|].
  intros [= <- <-].
  apply parse_servers_inr in E1 as (l1' & -> & H1).
  apply parse_servers_inr in E2 as (l2 & -> & H2).
  exists cc, ep, l1', l2. repeat split; auto.
Qed.

Lemma parse_config_inl (t : string) (e : exception) :
  parse_config untangle_parse t = inl e -> exists le, e = LibraryError le.
Proof.
  destruct (untangle_parse t) as [le|root] eqn:Hroot.
  { unfold parse_config. rewrite Hroot. intros [= <-]. eauto. }
  rewrite (parse_config_tree _ _ Hroot).
  destruct (child_elements root "clientConfig") as [|cc [|? ?]];
    try (intros [= <-]; eauto).
  destruct (child_elements cc "emailProvider") as [|ep [|? ?]];
    try (intros [= <-]; eauto).
  destruct (_ || _); [intros [= <-]; eauto|].
  destruct (parse_servers (child_elements ep "incomingServer") []) as [e1|l1] eqn:E1;
    cbn [mbind Result_bind].
  { intros [= <-]. apply parse_servers_inl in E1 as (a & _ & Ha).
    now apply parse_server_error in Ha. }
  destruct (parse_servers (child_elements ep "outgoingServer") l1) as [e2|r] eqn:E2;
    cbn [mbind Result_bind]; [|discriminate].
  intros [= <-]. apply parse_servers_inl in E2 as (a & _ & Ha).
  now apply parse_server_error in Ha.
Qed.

End ParseConfig.

(** ** Exceptions of the library layer *)

Lemma _checknetloc_inl (n : string) (e : exception) :
  _checknetloc n = inl e -> exists le, e = LibraryError le.
Proof.
  unfold _checknetloc.
  repeat match goal with
         | |- context [if ?b then _ else _] => destruct b
         end; intros [= <-]; eauto.
Qed.

Lemma check_brackets_inl (ip : string -> bool) (n : string) (e : exception) :
  check_brackets ip n = inl e -> exists le, e = LibraryError le.
Proof.
  unfold check_brackets, _check_bracketed_netloc, _check_bracketed_host.
  repeat match goal with
         | |- context [if ?b then _ else _] => destruct b
         | |- context [let '(_, _) := ?p in _] => destruct p
         end; intros [= <-]; eauto.
Qed.

Lemma fix_url_inl (ip : string -> bool) (domain : string) (e : exception) :
  fix_url ip domain = inl e -> exists le, e = LibraryError le.
Proof.
  rewrite fix_url_netloc. unfold netloc_checks.
  destruct (check_brackets ip _) as [e1|[]] eqn:E1; cbn [mbind Result_bind].
  { intros [= <-]. now apply check_brackets_inl in E1. }
  destruct (_checknetloc _) as [e2|[]] eqn:E2; cbn [mbind Result_bind].
  { intros [= <-]. now apply _checknetloc_inl in E2. }
  discriminate.
Qed.

(** ** ClientConfig *)

Lemma join_config_url (domain : string) :
  Str.join "/" [DATABASE_URL; domain] = config_url domain.
Proof. reflexivity. Qed.

Section ResolverFacts.

Variable ip : string -> bool.
Variable requests_get : string -> library_error + Response.
Variable os_path : string -> path_kind.
Variable untangle_parse : string -> library_error + Element.

(** [__init__], step by step *)
Lemma __init___run (domain : string) (log : list string) :
  __init__ ip requests_get os_path untangle_parse domain log
  = match fix_url ip domain with
    | inl e => (inl e, log)
    | inr n =>
        match requests_get (config_url n) with
        | inl le => (raise le, log ++ [config_url n])
        | inr resp =>
            if negb (ok resp) || String.eqb (text resp) "" then
              (inl (Exception ("No configuration file found for '"
                                 +:+ domain +:+ "'")),
               log ++ [config_url n])
            else
              match parse_config untangle_parse (text resp) with
              | inl e =>
                  (inl e,
                   (log ++ [config_url n])
                     ++ untangle_opens (os_path (text resp)) (text resp))
              | inr (ep, cfgs) =>
                  (inr (mkClientConfig n (text resp) ep cfgs),
                   (log ++ [config_url n])
                     ++ untangle_opens (os_path (text resp)) (text resp))
              end
        end
    end%list.
Proof.
  unfold __init__, request_config, get, lift, throw, parse_config_IO.
  unfold mbind, mret, IO_bind, IO_ret.
  destruct (fix_url ip domain) as [e|n]; [reflexivity|].
  rewrite join_config_url.
  destruct (requests_get (config_url n)) as [le|resp]; [reflexivity|].
  cbn [of_library mret Result_ret].
  destruct (ok resp); cbn [negb orb not_ default from_option id]; [|reflexivity].
  destruct (String.eqb (text resp) ""); [reflexivity|].
  destruct (parse_config untangle_parse (text resp)) as [e|[ep cfgs]];
    reflexivity.
Qed.

End ResolverFacts.

(** ** Lower case *)

Lemma lower_char_idempotent (c : ascii) :
  Str.lower_char (Str.lower_char c) = Str.lower_char c.
Proof. destruct c as [[] [] [] [] [] [] [] []]; vm_compute; reflexivity. Qed.

Lemma lower_idempotent (s : string) : Str.lower (Str.lower s) = Str.lower s.
Proof.
  induction s as [|a s IH]; [reflexivity|].
  cbn [Str.lower]. now rewrite lower_char_idempotent, IH.
Qed.



(** ** The scan of _get_config *)

Lemma _get_config_loop_Some (l : list ServerConfig) (p : string) (s : ServerConfig) :
  _get_config_loop l p = Some s <->
  exists l1 l2,
    l = (l1 ++ s :: l2)%list /\
    protocol s = Some (Str.lower p) /\
    Forall (fun t => protocol t <> Some (Str.lower p)) l1.
Proof.
  induction l as [|c l IH]; cbn [_get_config_loop].
  - split; [discriminate|]. intros (l1 & l2 & H & _). now destruct l1.
  - destruct (bool_decide_reflect (protocol c = Some (Str.lower p))) as [Hc|Hc].
    + split.
      * intros [= <-]. exists [], l. auto.
      * intros (l1 & l2 & H & Hs & HF). destruct l1 as [|t l1].
        { now injection H as ->. }
        injection H as <- _. inversion HF; contradiction.
    + rewrite IH. split.
      * intros (l1 & l2 & -> & Hs & HF). exists (c :: l1), l2. auto.
      * intros (l1 & l2 & H & Hs & HF). destruct l1 as [|t l1].
        { injection H as -> _. contradiction. }
        injection H as <- ->. inversion HF. eauto.
Qed.

Lemma _get_config_loop_None (l : list ServerConfig) (p : string) :
  _get_config_loop l p = None <->
  Forall (fun t => protocol t <> Some (Str.lower p)) l.
Proof.
  induction l as [|c l IH]; cbn [_get_config_loop].
  - split; auto.
  - destruct (bool_decide_reflect (protocol c = Some (Str.lower p))) as [Hc|Hc].
    + split; [discriminate|]. inversion 1; contradiction.
    + rewrite IH. split; [auto | now inversion 1].
Qed.

Lemma _get_config_loop_lowercase (l : list ServerConfig) (p : string) :
  Forall (fun t => forall q, protocol t = Some q -> Str.lower q = q) l ->
  _get_config_loop l p = lookup_case_insensitive l p.
Proof.
  induction 1 as [|c l Hc HF IH]; [reflexivity|].
  cbn [_get_config_loop lookup_case_insensitive]. rewrite IH.
  destruct (protocol c) as [q|] eqn:Eq; cbn [fmap option_fmap option_map].
  - specialize (Hc q eq_refl).
    destruct (bool_decide_reflect (Some q = Some (Str.lower p))) as [H|H];
      destruct (bool_decide_reflect (Some (Str.lower q) = Some (Str.lower p)))
        as [H'|H']; try reflexivity; exfalso; congruence.
  - reflexivity.
Qed.

(** ** The public operations *)

Section Operations.

Variable ip : string -> bool.
Variable requests_get : string -> library_error + Response.
Variable os_path : string -> path_kind.
Variable untangle_parse : string -> library_error + Element.

Lemma get_config_run (domain p : string) (log : list string) :
  get_config ip requests_get os_path untangle_parse domain p log
  = match __init__ ip requests_get os_path untangle_parse domain log with
    | (inl e, log') => (inl e, log')
    | (inr self, log') => (inr (_get_config self p), log')
    end.
Proof. reflexivity. Qed.

(** C1 (amended). For a domain that resolves, [get_config] scans the
    resolved list in document order and returns the first entry whose
    stored protocol equals the lower-cased query, or [None] when there is
    none; on a list whose stored protocols are lower case this is the
    case-insensitive scan. *)
Theorem get_config_first_match
        (domain p : string) (log log' : list string) (self : ClientConfig) :
  __init__ ip requests_get os_path untangle_parse domain log = (inr self, log') ->
  get_config ip requests_get os_path untangle_parse domain p log
    = (inr (_get_config self p), log') /\
  (forall s,
      _get_config self p = Some s <->
      exists l1 l2,
        configs self = (l1 ++ s :: l2)%list /\
        protocol s = Some (Str.lower p) /\
        Forall (fun t => protocol t <> Some (Str.lower p)) l1) /\
  (_get_config self p = None <->
   Forall (fun t => protocol t <> Some (Str.lower p)) (configs self)) /\
  (Forall (fun t => forall q, protocol t = Some q -> Str.lower q = q)
          (configs self) ->
   _get_config self p = lookup_case_insensitive (configs self) p).
Proof.
  intros H. rewrite get_config_run, H. split; [reflexivity|].
  unfold _get_config. split; [|split].
  - intros s. apply _get_config_loop_Some.
  - apply _get_config_loop_None.
  - apply _get_config_loop_lowercase.
Qed.


(** C7. [request_config] issues one GET, to the database root joined
    with the domain by a slash, and answers from that response alone. *)
Theorem request_config_url (domain : string) (log : list string) :
  (request_config requests_get domain log).2
    = (log ++ [DATABASE_URL +:+ "/" +:+ domain])%list /\
  DATABASE_URL = "https://autoconfig.thunderbird.net/v1.1" /\
  (request_config requests_get domain log).1
    = (response ← of_library (requests_get (DATABASE_URL +:+ "/" +:+ domain));
       mret (if ok response then Some (text response) else None)).
Proof.
  unfold request_config, get. rewrite join_config_url.
  unfold mbind, mret, IO_bind, IO_ret, config_url.
  now destruct (of_library _).
Qed.

(** C8. For a domain that resolves, [get_configs] returns the resolved
    list itself: every entry, in the same order. *)
Theorem get_configs_all
        (domain : string) (log log' : list string) (self : ClientConfig) :
  __init__ ip requests_get os_path untangle_parse domain log = (inr self, log') ->
  get_configs ip requests_get os_path untangle_parse domain log
    = (inr (configs self), log').
Proof.
  intros H. unfold get_configs, mbind, IO_bind. now rewrite H.
Qed.


End Operations.

(** ** Documents that cannot be read *)


Lemma well_formed_servers (root : Element) :
  well_formed root = true -> forallb well_formed_server (server_elements root) = true.
Proof.
  unfold well_formed, server_elements.
  destruct (child_elements root "clientConfig") as [|cc [|? ?]]; try discriminate.
  destruct (child_elements cc "emailProvider") as [|ep [|? ?]]; try discriminate.
  intros H. now apply andb_true_iff in H as [_ H].
Qed.

Section Unreadable.

Variable ip : string -> bool.
Variable requests_get : string -> library_error + Response.
Variable os_path : string -> path_kind.
Variable untangle_parse : string -> library_error + Element.



(** The servers of a resolved domain are those of the document, read
    one by one in the order incoming, outgoing. *)
Lemma __init___configs (domain : string) (log log' : list string)
      (self : ClientConfig) :
  __init__ ip requests_get os_path untangle_parse domain log = (inr self, log') ->
  exists root,
    untangle_parse (xml self) = inr root /\
    Forall2 reads (server_elements root) (configs self).
Proof.
  rewrite __init___run.
  destruct (fix_url ip domain) as [e|n]; [discriminate|].
  destruct (requests_get (config_url n)) as [le|resp]; [discriminate|].
  destruct (_ || _); [discriminate|].
  destruct (parse_config untangle_parse (text resp)) as [e|[id cfgs]] eqn:Ep;
    [discriminate|].
  intros [= <- <-]. cbn [xml configs].
  destruct (untangle_parse (text resp)) as [le|root] eqn:Er.
  { unfold parse_config in Ep. rewrite Er in Ep. discriminate. }
  exists root. split; [reflexivity|].
  destruct (parse_config_inr _ _ _ _ _ Er Ep)
    as (cc & ep & l1 & l2 & Hcc & Hep & _ & H1 & H2 & ->).
  unfold server_elements. rewrite Hcc, Hep. now apply Forall2_app.
Qed.


End Unreadable.

(** ** The example database *)

Lemma mail_resolves :
  __init__ Example.ip_address_is_v6 Example.requests_get Example.os_path Example.untangle_parse
           "example.com" []
  = (inr Example.mail_client, [config_url "example.com"]).
Proof. vm_compute. reflexivity. Qed.

Lemma upper_resolves :
  __init__ Example.ip_address_is_v6 Example.requests_get Example.os_path Example.untangle_parse
           "upper.example" []
  = (inr Example.upper_client, [config_url "upper.example"]).
Proof. vm_compute. reflexivity. Qed.

(** The first match for [IMAP] at [example.com] is the IMAP entry. *)
Lemma get_config_first_match_witness :
  __init__ Example.ip_address_is_v6 Example.requests_get Example.os_path Example.untangle_parse
           "example.com" []
  = (inr Example.mail_client, [config_url "example.com"]) /\
  get_config Example.ip_address_is_v6 Example.requests_get Example.os_path Example.untangle_parse
             "example.com" "IMAP" []
  = (inr (_get_config Example.mail_client "IMAP"), [config_url "example.com"]).
Proof.
  split; [exact mail_resolves|].
  apply (get_config_first_match
           Example.ip_address_is_v6 Example.requests_get Example.os_path Example.untangle_parse
           "example.com" "IMAP" [] [config_url "example.com"] Example.mail_client).
  vm_compute. reflexivity.
Defined.

(** C1, as stated, fails: the entry typed [IMAP] matches the query [imap]
    when case is ignored, and [get_config] returns [None]. *)
Lemma get_config_not_case_insensitive :
  ~ lookup_is_case_insensitive
      Example.ip_address_is_v6 Example.requests_get Example.os_path Example.untangle_parse
      "upper.example" "imap".
Proof.
  intros H. specialize (H [] _ _ upper_resolves).
  vm_compute in H. discriminate.
Qed.


(** [get_configs] at [example.com] returns both entries. *)
Lemma get_configs_all_witness :
  __init__ Example.ip_address_is_v6 Example.requests_get Example.os_path Example.untangle_parse
           "example.com" []
  = (inr Example.mail_client, [config_url "example.com"]) /\
  get_configs Example.ip_address_is_v6 Example.requests_get Example.os_path Example.untangle_parse
              "example.com" []
  = (inr [Example.imap_config; Example.smtp_config], [config_url "example.com"]).
Proof.
  split; [vm_compute; reflexivity|].
  apply (get_configs_all
           Example.ip_address_is_v6 Example.requests_get Example.os_path Example.untangle_parse
           "example.com" [] [config_url "example.com"] Example.mail_client).
  vm_compute. reflexivity.
Defined.






(** C2. A document with one incoming server and no outgoing server, every
    server element readable: [__init__] raises [AttributeError] where the
    claim has a list of one entry. *)
Theorem __init___incoming_only :
  Example.untangle_parse Example.incoming_only_xml = inr Example.incoming_only /\
  server_elements Example.incoming_only
  = [Example.server "incomingServer" {["type" := "imap"]} Example.imap_fields] /\
  forallb well_formed_server (server_elements Example.incoming_only) = true /\
  (__init__ Example.ip_address_is_v6 Example.requests_get Example.os_path Example.untangle_parse
            "incoming.example" []).1
  = inl (LibraryError AttributeError).
Proof. repeat split; vm_compute; reflexivity. Qed.

(** The network location of [http://example.com/path?q#f] *)
Lemma fix_url_is_netloc_witness :
  fix_url Example.ip_address_is_v6 "http://example.com/path?q#f"
  = inr "example.com" /\
  Str.contains "example.com" "/" = false.
Proof.
  split; [reflexivity|].
  exact (proj1 (fix_url_is_netloc
                  Example.ip_address_is_v6 "http://example.com/path?q#f"
                  "example.com" eq_refl)).
Defined.

(** * Further properties *)

(** ** Requests issued *)

Lemma _get_config_loop_query (l : list ServerConfig) (p q : string) :
  Str.lower p = Str.lower q -> _get_config_loop l p = _get_config_loop l q.
Proof.
  intros H. induction l as [|c l IH]; [reflexivity|].
  cbn [_get_config_loop]. now rewrite H, IH.
Qed.

Lemma _get_config_loop_In (l : list ServerConfig) (p : string) (s : ServerConfig) :
  _get_config_loop l p = Some s -> In s l.
Proof.
  intros H. apply _get_config_loop_Some in H as (l1 & l2 & -> & _).
  apply in_or_app. right. now left.
Qed.

Section MoreOperations.

Variable ip : string -> bool.
Variable requests_get : string -> library_error + Response.
Variable os_path : string -> path_kind.
Variable untangle_parse : string -> library_error + Element.

Lemma __init___log (domain : string) (log : list string) :
  (__init__ ip requests_get os_path untangle_parse domain log).2
  = (log ++
     match fix_url ip domain with
     | inl _ => []
     | inr n =>
         config_url n ::
         match requests_get (config_url n) with
         | inl _ => []
         | inr resp =>
             if ok resp && negb (String.eqb (text resp) "")
             then untangle_opens (os_path (text resp)) (text resp)
             else []
         end
     end)%list.
Proof.
  rewrite __init___run.
  destruct (fix_url ip domain) as [e|n]; [now rewrite app_nil_r|].
  destruct (requests_get (config_url n)) as [le|resp]; [reflexivity|].
  destruct (ok resp); cbn [negb orb andb]; [|reflexivity].
  destruct (String.eqb (text resp) ""); cbn [negb]; [reflexivity|].
  destruct (parse_config untangle_parse (text resp)) as [e|[ep cfgs]];
    cbn [snd]; now rewrite <- app_assoc.
Qed.

(** X1. What constructing a [ClientConfig] hands to an HTTP client:
    nothing when [fix_url] refuses the input; otherwise the URL of the
    normalised domain, once, to [requests.get]; and after it, when the
    response has a good status and a body, whatever [untangle.parse]
    opens, which is at most the body itself, and only a body that starts
    with [http://] or [https://] or names an existing path. *)
Theorem __init___one_request (domain : string) (log : list string) :
  (__init__ ip requests_get os_path untangle_parse domain log).2
  = (log ++
     match fix_url ip domain with
     | inl _ => []
     | inr n =>
         config_url n ::
         match requests_get (config_url n) with
         | inl _ => []
         | inr resp =>
             if ok resp && negb (String.eqb (text resp) "")
             then untangle_opens (os_path (text resp)) (text resp)
             else []
         end
     end)%list /\
  (forall kind body,
      untangle_opens kind body = [] \/
      untangle_opens kind body = [body] /\
      (kind = OtherPath \/ kind = NoPath /\ is_url body = true)).
Proof.
  split; [apply __init___log|].
  intros kind body. unfold untangle_opens.
  destruct (String.eqb _ ""); [now left|].
  destruct kind; [|now left|right; auto].
  destruct (is_url body); [right; auto | now left].
Qed.

Lemma __init___log_relative (domain : string) (log : list string) :
  (__init__ ip requests_get os_path untangle_parse domain log).2
  = (log ++ (__init__ ip requests_get os_path untangle_parse domain []).2)%list.
Proof. now rewrite !__init___log. Qed.

Lemma get_config_log (domain p : string) (log : list string) :
  (get_config ip requests_get os_path untangle_parse domain p log).2
  = (__init__ ip requests_get os_path untangle_parse domain log).2.
Proof.
  rewrite get_config_run.
  now destruct (__init__ ip requests_get os_path untangle_parse domain log)
    as [[e|c] l].
Qed.

Lemma get_configs_run (domain : string) (log : list string) :
  get_configs ip requests_get os_path untangle_parse domain log
  = match __init__ ip requests_get os_path untangle_parse domain log with
    | (inl e, log') => (inl e, log')
    | (inr self, log') => (inr (configs self), log')
    end.
Proof. reflexivity. Qed.

(** X2. Nothing is cached: the second of two lookups for the same domain
    hands to the HTTP clients everything a construction does, all over
    again. *)
Theorem get_config_twice (domain p q : string) (log : list string) :
  (get_config ip requests_get os_path untangle_parse domain q
     (get_config ip requests_get os_path untangle_parse domain p log).2).2
  = (log
     ++ (__init__ ip requests_get os_path untangle_parse domain []).2
     ++ (__init__ ip requests_get os_path untangle_parse domain []).2)%list.
Proof.
  rewrite !get_config_log.
  rewrite (__init___log_relative domain
             (__init__ ip requests_get os_path untangle_parse domain log).2).
  rewrite (__init___log_relative domain log).
  now rewrite <- app_assoc.
Qed.

(** X3. The case of the query does not matter: two queries with the same
    lower-case form give the same lookup, so a query and its lower-case
    form do. *)
Theorem get_config_query_case (domain p q : string) (log : list string) :
  Str.lower p = Str.lower q ->
  get_config ip requests_get os_path untangle_parse domain p log
  = get_config ip requests_get os_path untangle_parse domain q log /\
  get_config ip requests_get os_path untangle_parse domain (Str.lower p) log
  = get_config ip requests_get os_path untangle_parse domain p log.
Proof.
  intros H. rewrite !get_config_run.
  destruct (__init__ ip requests_get os_path untangle_parse domain log) as [[e|c] l];
    [split; reflexivity|].
  unfold _get_config. split; do 2 f_equal.
  - now apply _get_config_loop_query.
  - apply _get_config_loop_query, lower_idempotent.
Qed.

(** X4. What [get_config] returns for a domain is one of the entries
    [get_configs] returns for it. *)
Theorem get_config_in_get_configs
        (domain p : string) (log log' : list string) (s : ServerConfig) :
  get_config ip requests_get os_path untangle_parse domain p log = (inr (Some s), log') ->
  exists cfgs,
    get_configs ip requests_get os_path untangle_parse domain log = (inr cfgs, log') /\
    In s cfgs.
Proof.
  rewrite get_config_run, get_configs_run.
  destruct (__init__ ip requests_get os_path untangle_parse domain log) as [[e|c] l];
    [discriminate|].
  intros [= H <-]. exists (configs c). split; [reflexivity|].
  now apply _get_config_loop_In in H.
Qed.

Lemma __init___inr (d : string) (log log' : list string) (self : ClientConfig) :
  __init__ ip requests_get os_path untangle_parse d log = (inr self, log') ->
  exists resp,
    fix_url ip d = inr (domain self) /\
    requests_get (config_url (domain self)) = inr resp /\
    ok resp = true /\
    String.eqb (text resp) "" = false /\
    text resp = xml self /\
    parse_config untangle_parse (xml self) = inr (emailProvider self, configs self) /\
    log' = ((log ++ [config_url (domain self)])
              ++ untangle_opens (os_path (xml self)) (xml self))%list.
Proof.
  rewrite __init___run.
  destruct (fix_url ip d) as [e|n]; [discriminate|].
  destruct (requests_get (config_url n)) as [le|resp] eqn:Er; [discriminate|].
  destruct (ok resp) eqn:Eok; cbn [negb orb]; [|discriminate].
  destruct (String.eqb (text resp) "") eqn:Et; [discriminate|].
  destruct (parse_config untangle_parse (text resp)) as [e|[ep cfgs]] eqn:Ep;
    [discriminate|].
  intros [= <- <-]. exists resp. cbn [domain xml emailProvider configs].
  repeat split; assumption.
Qed.

(** X6. What a constructed [ClientConfig] holds: its domain is the
    normalised input, its [xml] is the non-empty body of a response with
    a good status for that domain, and its provider and servers are what
    [parse_config] reads from that body. *)
Theorem __init___fields
        (d : string) (log log' : list string) (self : ClientConfig) :
  __init__ ip requests_get os_path untangle_parse d log = (inr self, log') ->
  fix_url ip d = inr (domain self) /\
  xml self <> "" /\
  (exists resp,
      requests_get (config_url (domain self)) = inr resp /\
      ok resp = true /\ text resp = xml self) /\
  parse_config untangle_parse (xml self) = inr (emailProvider self, configs self).
Proof.
  intros H. apply __init___inr in H as (resp & Hd & Hr & Hok & Ht & Hx & Hp & _).
  repeat split; try assumption.
  - rewrite <- Hx. now apply String.eqb_neq.
  - exists resp. auto.
Qed.

(** X7. Constructing again from the stored domain gives the same object
    and the same request: the stored domain is already normalised. *)
Theorem __init___again
        (d : string) (log log' : list string) (self : ClientConfig) :
  __init__ ip requests_get os_path untangle_parse d log = (inr self, log') ->
  __init__ ip requests_get os_path untangle_parse (domain self) log = (inr self, log').
Proof.
  intros H. apply __init___inr in H as (resp & Hd & Hr & Hok & Ht & Hx & Hp & ->).
  apply fix_url_result in Hd as [Hn Hc].
  assert (fix_url ip (domain self) = inr (domain self)) as Hfix.
  { rewrite fix_url_fixpoint, Hc; [reflexivity| |].
    - intros c Hc'. rewrite Hn. now apply netloc_span_delim.
    - rewrite Hn. apply netloc_span_unsafe_free, remove_unsafe_free. }
  rewrite __init___run, Hfix, Hr, Hok, Ht, Hx, Hp. cbn [negb orb].
  now destruct self.
Qed.

(** X8. A constructed [ClientConfig] has one entry per server element of
    its document, the document has at least one incoming and one outgoing
    server, and the provider is the [id] attribute of [emailProvider]. *)
Theorem __init___config_count
        (d : string) (log log' : list string) (self : ClientConfig) :
  __init__ ip requests_get os_path untangle_parse d log = (inr self, log') ->
  exists root cc ep,
    untangle_parse (xml self) = inr root /\
    child_elements root "clientConfig" = [cc] /\
    child_elements cc "emailProvider" = [ep] /\
    emailProvider self = get_attribute ep "id" /\
    (1 <= length (child_elements ep "incomingServer"))%nat /\
    (1 <= length (child_elements ep "outgoingServer"))%nat /\
    length (configs self)
    = (length (child_elements ep "incomingServer")
       + length (child_elements ep "outgoingServer"))%nat.
Proof.
  intros H. apply __init___inr in H as (resp & _ & _ & _ & _ & _ & Hp & _).
  destruct (untangle_parse (xml self)) as [le|root] eqn:Er.
  { unfold parse_config in Hp. rewrite Er in Hp. discriminate. }
  assert (well_formed root = true) as Hw
      by (apply (parse_config_well_formed _ _ _ Er); eauto).
  destruct (parse_config_inr _ _ _ _ _ Er Hp)
    as (cc & ep & l1 & l2 & Hcc & Hep & Hid & H1 & H2 & Hl).
  exists root, cc, ep. unfold well_formed in Hw. rewrite Hcc, Hep in Hw.
  apply andb_true_iff in Hw as [Hw _]. apply andb_true_iff in Hw as [Hi Ho].
  apply negb_true_iff, bool_decide_eq_false in Hi, Ho.
  repeat split; try assumption.
  - destruct (child_elements ep "incomingServer"); [congruence | cbn; lia].
  - destruct (child_elements ep "outgoingServer"); [congruence | cbn; lia].
  - rewrite Hl, length_app.
    now rewrite (Forall2_length _ _ _ H1), (Forall2_length _ _ _ H2).
Qed.

(** X9. The exception of [__init__] quotes the domain as it was given,
    not as normalised. *)
Theorem __init___message (d msg : string) (log : list string) :
  (__init__ ip requests_get os_path untangle_parse d log).1 = inl (Exception msg) ->
  msg = "No configuration file found for '" +:+ d +:+ "'".
Proof.
  rewrite __init___run.
  destruct (fix_url ip d) as [e|n] eqn:Ef.
  { apply fix_url_inl in Ef as [le ->]. discriminate. }
  destruct (requests_get (config_url n)) as [le|resp]; [discriminate|].
  destruct (_ || _); [now intros [= <-]|].
  destruct (parse_config untangle_parse (text resp)) as [e|[ep cfgs]] eqn:Ep;
    [|discriminate].
  apply parse_config_inl in Ep as [le ->]. discriminate.
Qed.

(** X10. An exception of [requests.get] leaves [__init__] unchanged, after
    the one request. *)
Theorem __init___transport_error
        (d n : string) (le : library_error) (log : list string) :
  fix_url ip d = inr n ->
  requests_get (config_url n) = inl le ->
  __init__ ip requests_get os_path untangle_parse d log
  = (inl (LibraryError le), (log ++ [config_url n])%list).
Proof. intros Hn Hr. now rewrite __init___run, Hn, Hr. Qed.

End MoreOperations.

(** ** Reading server elements *)

(** X11. Where the fields of a [ServerConfig] come from: the protocol is
    the [type] attribute of the server element ([None] without one), the
    port is [int] of the text of its one [port] child, and the other four
    are the texts of the one child of their kind. *)
Theorem parse_server_fields (attr : Element) (s : ServerConfig) :
  parse_server attr = inr s ->
  protocol s = get_attribute attr "type" /\
  exists h p st au u,
    child_elements attr "hostname" = [h] /\ hostname s = cdata h /\
    child_elements attr "port" = [p] /\ int (cdata p) = inr (port s) /\
    child_elements attr "socketType" = [st] /\ socket_type s = cdata st /\
    child_elements attr "authentication" = [au] /\ authentication s = cdata au /\
    child_elements attr "username" = [u] /\ username s = cdata u.
Proof.
  unfold parse_server. rewrite !read_field.
  destruct (child_elements attr "hostname") as [|h [|? ?]]; try discriminate.
  destruct (child_elements attr "port") as [|p [|? ?]]; try discriminate.
  cbn [mbind Result_bind].
  destruct (int (cdata p)) as [e|z] eqn:Ei; try discriminate.
  destruct (child_elements attr "socketType") as [|st [|? ?]]; try discriminate.
  destruct (child_elements attr "authentication") as [|au [|? ?]]; try discriminate.
  destruct (child_elements attr "username") as [|u [|? ?]]; try discriminate.
  intros [= <-]. split; [reflexivity|].
  exists h, p, st, au, u. repeat split; assumption.
Qed.

(** X12. How reading a server element fails: with [AttributeError] when a
    child element is missing or there are several of a kind, and with
    [ValueError] when hostname and port are there once and the port text is
    no integer. *)
Theorem parse_server_errors (attr : Element) (e : exception) :
  parse_server attr = inl e ->
  (e = LibraryError AttributeError /\
   forallb (single attr) server_fields = false) \/
  (e = LibraryError ValueError /\
   exists h p,
     child_elements attr "hostname" = [h] /\
     child_elements attr "port" = [p] /\
     int (cdata p) = raise ValueError).
Proof.
  unfold parse_server, server_fields, single. rewrite !read_field.
  cbn [forallb].
  destruct (child_elements attr "hostname") as [|h [|? ?]];
    try (intros [= <-]; left; split; reflexivity).
  destruct (child_elements attr "port") as [|p [|? ?]];
    try (intros [= <-]; left; split; reflexivity).
  cbn [mbind Result_bind].
  destruct (int (cdata p)) as [e'|z] eqn:Ei.
  { intros [= <-]. right. apply int_error in Ei as Ee. subst e'.
    split; [reflexivity|]. exists h, p. auto. }
  destruct (child_elements attr "socketType") as [|st [|? ?]];
    try (intros [= <-]; left; split; reflexivity).
  destruct (child_elements attr "authentication") as [|au [|? ?]];
    try (intros [= <-]; left; split; reflexivity).
  destruct (child_elements attr "username") as [|u [|? ?]];
    try (intros [= <-]; left; split; reflexivity).
Qed.

(** X13. Server elements are read in order and the first one that cannot
    be read decides: its exception is raised, the elements before it were
    read, and no list is returned. *)
Theorem parse_servers_first_error
        (l : list Element) (acc : list ServerConfig) (e : exception) :
  parse_servers l acc = inl e ->
  exists l1 attr l2 done,
    l = (l1 ++ attr :: l2)%list /\
    Forall2 reads l1 done /\
    parse_server attr = inl e.
Proof.
  revert acc. induction l as [|a l IH]; intros acc; cbn [parse_servers];
    [discriminate|].
  destruct (parse_server a) as [e'|s] eqn:E; cbn [mbind Result_bind].
  - intros [= <-]. exists [], a, l, []. repeat split; [constructor | assumption].
  - intros H. apply IH in H as (l1 & attr & l2 & done & -> & HF & He).
    exists (a :: l1), attr, l2, (s :: done).
    repeat split; [now constructor | assumption].
Qed.

Section MoreParsing.

Variable untangle_parse : string -> library_error + Element.

(** X14. With several [emailProvider] elements [parse_config] raises
    [TypeError]: the attribute access gives a list, and a list takes no
    string index. *)
Theorem parse_config_several_providers (t : string) (root cc : Element) :
  untangle_parse t = inr root ->
  child_elements root "clientConfig" = [cc] ->
  (2 <= length (child_elements cc "emailProvider"))%nat ->
  parse_config untangle_parse t = raise TypeError.
Proof.
  intros Hroot Hcc. rewrite (parse_config_tree _ _ _ Hroot), Hcc.
  destruct (child_elements cc "emailProvider") as [|ep [|? ?]];
    cbn [length]; (lia || reflexivity).
Qed.

End MoreParsing.

(** ** More on fix_url *)

Lemma startswith_append (p r : string) : Str.startswith (p +:+ r) p = true.
Proof.
  unfold Str.startswith. induction p as [|a p IH]; [now destruct r|].
  rewrite append_String. cbn [String.prefix].
  destruct (ascii_dec a a) as [_|H]; [assumption | congruence].
Qed.

Lemma netloc_span_append_delim (a b : string) (c : ascii) :
  is_delim c = true -> netloc_span (a +:+ String c b) = netloc_span a.
Proof.
  intros Hc. induction a as [|x a IH].
  - change ("" +:+ String c b) with (String c b). cbn [netloc_span].
    now rewrite Hc.
  - rewrite append_String. cbn [netloc_span]. now rewrite IH.
Qed.

Lemma remove_unsafe_delim (c : ascii) (s : string) :
  is_delim c = true -> remove_unsafe (String c s) = String c (remove_unsafe s).
Proof.
  unfold is_delim. intros H.
  destruct (Ascii.eqb_spec c "/") as [->|]; [reflexivity|].
  destruct (Ascii.eqb_spec c "?") as [->|]; [reflexivity|].
  destruct (Ascii.eqb_spec c "#") as [->|]; [reflexivity|discriminate].
Qed.

Lemma contains_drop (k : nat) (s : string) (c : ascii) :
  Str.contains (Str.drop k s) c = true -> Str.contains s c = true.
Proof.
  revert s. induction k as [|k IH]; intros s; [auto|].
  destruct s as [|a s]; cbn [Str.drop Str.contains]; [auto|].
  intros H. rewrite (IH _ H). apply orb_true_r.
Qed.

Lemma contains_remove_unsafe (s : string) (c : ascii) :
  Str.contains (remove_unsafe s) c = true -> Str.contains s c = true.
Proof.
  unfold remove_unsafe. cbn [fold_left _UNSAFE_URL_BYTES_TO_REMOVE].
  rewrite !contains_remove. intros H.
  now repeat (apply andb_true_iff in H as [H _]).
Qed.

Lemma contains_strip_scheme (s : string) (c : ascii) :
  Str.contains (strip_scheme s) c = true -> Str.contains s c = true.
Proof.
  unfold strip_scheme.
  destruct (Str.startswith s "http://"); [apply contains_drop|].
  destruct (Str.startswith s "https://"); [apply contains_drop | auto].
Qed.

Lemma nfkc_char_keeps (a : ascii) :
  forallb (fun c => implb (bool_decide (Str.code c ∈ nfkc_char a)) (Ascii.eqb a c))
          ["/"; "?"; "#"; "@"; ":"]%char = true.
Proof. destruct a as [[] [] [] [] [] [] [] []]; vm_compute; reflexivity. Qed.

Lemma nfkc_keeps (s : string) (c : ascii) :
  In c ["/"; "?"; "#"; "@"; ":"]%char ->
  bool_decide (Str.code c ∈ nfkc s) = true -> Str.contains s c = true.
Proof.
  intros Hc H. apply bool_decide_eq_true in H.
  induction s as [|a s IH]; cbn [nfkc] in H.
  - now apply not_elem_of_nil in H.
  - cbn [Str.contains]. apply elem_of_app in H as [H|H].
    + pose proof (nfkc_char_keeps a) as Hk. rewrite forallb_forall in Hk.
      specialize (Hk c Hc). rewrite (bool_decide_eq_true_2 _ H) in Hk.
      cbn [implb] in Hk. now rewrite Hk.
    + rewrite (IH H). apply orb_true_r.
Qed.

Lemma _checknetloc_ok (n : string) :
  Str.contains n "/" = false -> _checknetloc n = inr tt.
Proof.
  intros Hn. unfold _checknetloc.
  destruct (_ || _); [reflexivity|].
  destruct (bool_decide (code_points _ = _)); [reflexivity|].
  destruct (existsb _ _) eqn:E; [|reflexivity].
  apply existsb_exists in E as (c & Hc & H).
  apply (nfkc_keeps _ _ Hc) in H. rewrite !contains_remove in H.
  cbn [In] in Hc.
  destruct Hc as [<-|[<-|[<-|[<-|[<-|[]]]]]]; cbn in H;
    rewrite ?andb_false_r, ?andb_true_r in H; congruence.
Qed.

Lemma check_brackets_error (ip : string -> bool) (n : string) (e : exception) :
  check_brackets ip n = inl e ->
  e = LibraryError ValueError /\
  (Str.contains n "[" || Str.contains n "]") = true.
Proof.
  unfold check_brackets, _check_bracketed_netloc, _check_bracketed_host.
  destruct (Str.contains n "["), (Str.contains n "]"); cbn [andb orb negb];
    try discriminate;
    repeat match goal with
           | |- context [if ?b then _ else _] => destruct b
           | |- context [let '(_, _) := ?p in _] => destruct p
           end; intros [= <-]; auto.
Qed.

Lemma strip_scheme_http (r : string) : strip_scheme ("http://" +:+ r) = r.
Proof. unfold strip_scheme. now rewrite startswith_append. Qed.

Lemma strip_scheme_https (r : string) : strip_scheme ("https://" +:+ r) = r.
Proof.
  unfold strip_scheme.
  change (Str.startswith ("https://" +:+ r) "http://") with false.
  now rewrite startswith_append.
Qed.

Section MoreFixUrl.

Variable ip : string -> bool.

(** X15. The scheme does not matter: [http://] and [https://] in front of
    the same text give the same result. *)
Theorem fix_url_scheme_irrelevant (r : string) :
  fix_url ip ("http://" +:+ r) = fix_url ip ("https://" +:+ r).
Proof.
  now rewrite !fix_url_netloc, strip_scheme_http, strip_scheme_https.
Qed.

(** X16. Whatever follows the first ['/'], ['?'] or ['#'] after the scheme
    is ignored. *)
Theorem fix_url_ignores_path (h rest : string) (c : ascii) :
  is_delim c = true ->
  fix_url ip ("http://" +:+ h +:+ String c rest) = fix_url ip ("http://" +:+ h) /\
  fix_url ip ("https://" +:+ h +:+ String c rest) = fix_url ip ("https://" +:+ h).
Proof.
  intros Hc. rewrite !fix_url_netloc, !strip_scheme_http, !strip_scheme_https.
  rewrite remove_unsafe_append, (remove_unsafe_delim _ _ Hc).
  now rewrite (netloc_span_append_delim _ _ _ Hc).
Qed.

(** X17. The result holds no tab, carriage return or line feed, wherever
    they stood in the input. *)
Theorem fix_url_no_line_break (x n : string) :
  fix_url ip x = inr n ->
  Str.contains n (ascii_of_N 9) = false /\
  Str.contains n (ascii_of_N 13) = false /\
  Str.contains n (ascii_of_N 10) = false.
Proof.
  intros H. apply fix_url_result in H as [-> _].
  pose proof (netloc_span_unsafe_free _ (remove_unsafe_free (strip_scheme x))) as Hu.
  repeat split; apply Hu; cbn; auto.
Qed.

(** X18. [fix_url] raises nothing but [ValueError], and only for an input
    that holds a square bracket. *)
Theorem fix_url_error (x : string) (e : exception) :
  fix_url ip x = inl e ->
  e = LibraryError ValueError /\
  (Str.contains x "[" || Str.contains x "]") = true.
Proof.
  rewrite fix_url_netloc. unfold netloc_checks.
  set (n := netloc_span (remove_unsafe (strip_scheme x))).
  destruct (check_brackets ip n) as [e1|[]] eqn:E1; cbn [mbind Result_bind].
  - intros [= <-]. apply check_brackets_error in E1 as [-> Hb].
    split; [reflexivity|].
    apply orb_true_iff in Hb. apply orb_true_iff.
    destruct Hb as [Hb|Hb]; [left|right];
      now apply contains_strip_scheme, contains_remove_unsafe, netloc_span_contains.
  - rewrite _checknetloc_ok; [discriminate|].
    now apply netloc_span_delim.
Qed.

End MoreFixUrl.

(** ** Printing and reading integers *)

Lemma digit_char_spec (d : Z) :
  (0 <= d < 10)%Z ->
  is_digit (digit_char d) = true /\ digit_value (digit_char d) = d.
Proof.
  intros H.
  assert (d = 0 \/ d = 1 \/ d = 2 \/ d = 3 \/ d = 4 \/ d = 5 \/ d = 6 \/
          d = 7 \/ d = 8 \/ d = 9)%Z as Hd by lia.
  repeat destruct Hd as [->|Hd]; try subst d; split; reflexivity.
Qed.

Lemma is_digit_value (a : ascii) :
  is_digit a = true -> (0 <= digit_value a < 10)%Z.
Proof.
  unfold is_digit, digit_value. intros H.
  apply andb_true_iff in H as [H1 H2].
  apply N.leb_le in H1, H2. lia.
Qed.

Lemma is_digit_plain (a : ascii) :
  is_digit a = true ->
  Ascii.eqb a "_" = false /\ int_space a = false /\
  Ascii.eqb a ":" = false /\ Ascii.eqb a "-" = false.
Proof.
  destruct a as [[] [] [] [] [] [] [] []]; vm_compute; intros H;
    (discriminate H || auto).
Qed.

Lemma digits_value_acc (s : string) (acc : Z) :
  digits_value s acc
  = (acc * 10 ^ Z.of_nat (String.length s) + digits_value s 0)%Z.
Proof.
  revert acc. induction s as [|a s IH]; intros acc.
  - cbn. lia.
  - cbn [digits_value String.length].
    rewrite (IH (10 * acc + digit_value a)%Z), (IH (10 * 0 + digit_value a)%Z).
    rewrite Nat2Z.inj_succ, Z.pow_succ_r by lia. ring.
Qed.

Lemma str_digits_value (fuel : nat) (n : Z) (acc : string) :
  (0 <= n < 2 ^ Z.of_nat fuel)%Z ->
  digits_value (str_digits fuel n acc) 0
  = (n * 10 ^ Z.of_nat (String.length acc) + digits_value acc 0)%Z.
Proof.
  revert n acc. induction fuel as [|fuel IH]; intros n acc Hn.
  - cbn in Hn. assert (n = 0)%Z as -> by lia. cbn [str_digits]. lia.
  - cbn [str_digits].
    assert (0 <= n mod 10 < 10)%Z as Hm by (apply Z.mod_pos_bound; lia).
    destruct (digit_char_spec _ Hm) as [_ Hv].
    pose proof (Z.div_mod n 10 ltac:(lia)) as Hdm.
    assert (digits_value (String (digit_char (n mod 10)) acc) 0
            = ((n mod 10) * 10 ^ Z.of_nat (String.length acc)
               + digits_value acc 0)%Z) as Hacc.
    { cbn [digits_value]. rewrite digits_value_acc, Hv. ring. }
    destruct (Z.eqb_spec (n / 10) 0) as [Hz|Hz].
    + rewrite Hacc. replace (n mod 10)%Z with n by lia. reflexivity.
    + rewrite IH.
      * rewrite Hacc. cbn [String.length].
        rewrite Nat2Z.inj_succ, Z.pow_succ_r by lia.
        rewrite Hdm at 3. ring.
      * rewrite Nat2Z.inj_succ, Z.pow_succ_r in Hn by lia.
        split; [apply Z.div_pos; lia|].
        apply Z.div_lt_upper_bound; lia.
Qed.

Lemma str_digits_all_digits (fuel : nat) (n : Z) (acc : string) :
  (0 <= n)%Z -> all_digits acc = true ->
  all_digits (str_digits fuel n acc) = true.
Proof.
  revert n acc. induction fuel as [|fuel IH]; intros n acc Hn Ha; [exact Ha|].
  cbn [str_digits].
  assert (0 <= n mod 10 < 10)%Z as Hm by (apply Z.mod_pos_bound; lia).
  destruct (digit_char_spec _ Hm) as [Hd _].
  assert (all_digits (String (digit_char (n mod 10)) acc) = true) as Ha'
      by (cbn [all_digits]; now rewrite Hd, Ha).
  destruct (n / 10 =? 0)%Z; [exact Ha'|].
  apply IH; [apply Z.div_pos; lia | exact Ha'].
Qed.

Lemma str_digits_length (fuel : nat) (n : Z) (acc : string) :
  (0 < n < 2 ^ Z.of_nat fuel)%Z ->
  exists k,
    String.length (str_digits fuel n acc) = (String.length acc + S k)%nat /\
    (10 ^ Z.of_nat k <= n)%Z.
Proof.
  revert n acc. induction fuel as [|fuel IH]; intros n acc Hn.
  - cbn in Hn. lia.
  - cbn [str_digits].
    pose proof (Z.div_mod n 10 ltac:(lia)) as Hdm.
    assert (0 <= n mod 10 < 10)%Z as Hm by (apply Z.mod_pos_bound; lia).
    destruct (Z.eqb_spec (n / 10) 0) as [Hz|Hz].
    + exists O. cbn [String.length]. split; [lia | cbn; lia].
    + assert (0 < n / 10 < 2 ^ Z.of_nat fuel)%Z as Hq.
      { rewrite Nat2Z.inj_succ, Z.pow_succ_r in Hn by lia.
        assert (0 <= n / 10)%Z by (apply Z.div_pos; lia).
        split; [lia|]. apply Z.div_lt_upper_bound; lia. }
      destruct (IH _ (String (digit_char (n mod 10)) acc) Hq) as (k & Hl & Hk).
      exists (S k). cbn [String.length] in Hl. split; [lia|].
      rewrite Nat2Z.inj_succ, Z.pow_succ_r by lia. lia.
Qed.

Lemma str_nat_fuel (n : Z) :
  (0 <= n)%Z -> (0 <= n < 2 ^ Z.of_nat (S (Z.to_nat (Z.log2 n))))%Z.
Proof.
  intros Hn. split; [assumption|].
  rewrite Nat2Z.inj_succ, Z2Nat.id by apply Z.log2_nonneg.
  destruct (Z.eq_dec n 0%Z) as [->|Hz]; [cbn; lia|].
  apply Z.log2_spec. lia.
Qed.

Lemma str_digits_grows (fuel : nat) (n : Z) (acc : string) :
  (String.length acc <= String.length (str_digits fuel n acc))%nat.
Proof.
  revert n acc. induction fuel as [|fuel IH]; intros n acc; cbn [str_digits];
    [lia|].
  destruct (n / 10 =? 0)%Z; [cbn [String.length]; lia|].
  etransitivity; [|apply IH]. cbn [String.length]. lia.
Qed.

Lemma str_nat_spec (n : Z) :
  (0 <= n)%Z ->
  all_digits (str_nat n) = true /\
  digits_value (str_nat n) 0 = n /\
  exists a r, str_nat n = String a r.
Proof.
  intros Hn. unfold str_nat. split; [|split].
  - now apply str_digits_all_digits.
  - rewrite str_digits_value by now apply str_nat_fuel. cbn. lia.
  - pose proof (str_digits_grows (Z.to_nat (Z.log2 n)) (n / 10)
                                 (String (digit_char (n mod 10)) "")) as Hg.
    cbn [str_digits]. destruct (n / 10 =? 0)%Z; [eauto|].
    destruct (str_digits _ _ _) as [|a r]; [cbn in Hg; lia | eauto].
Qed.

Lemma str_nat_length (n : Z) (k : nat) :
  (0 <= n < 10 ^ Z.of_nat k)%Z -> (1 <= k)%nat ->
  (String.length (str_nat n) <= k)%nat.
Proof.
  intros Hn Hk. destruct (Z.eq_dec n 0%Z) as [->|Hz];
    [change (String.length (str_nat 0)) with 1%nat; lia|].
  destruct (str_digits_length (S (Z.to_nat (Z.log2 n))) n "") as (j & Hl & Hj).
  { pose proof (str_nat_fuel n). lia. }
  unfold str_nat. rewrite Hl. cbn [String.length].
  assert (Z.of_nat j < Z.of_nat k)%Z; [|lia].
  apply (Z.pow_lt_mono_r_iff 10); lia.
Qed.

Lemma int_digits_all_digits (s : string) (prev : ascii) (acc : Z) (k : nat) :
  all_digits s = true ->
  (s <> "" \/ Ascii.eqb prev "_" = false) ->
  int_digits s prev acc k = Some (digits_value s acc, (k + String.length s)%nat).
Proof.
  revert prev acc k. induction s as [|a s IH]; intros prev acc k Ha Hs.
  - cbn. destruct Hs as [Hs| ->]; [congruence|]. do 2 f_equal. lia.
  - cbn [all_digits] in Ha. apply andb_true_iff in Ha as [Hd Ha].
    cbn [int_digits digits_value String.length]. rewrite Hd.
    rewrite IH; [do 2 f_equal; lia | assumption |].
    right. now apply is_digit_plain.
Qed.

Lemma int_digits_bound (s : string) (prev : ascii) (acc v : Z) (k n : nat) :
  int_digits s prev acc k = Some (v, n) ->
  (0 <= acc < 10 ^ Z.of_nat k)%Z ->
  (0 <= v < 10 ^ Z.of_nat n)%Z /\
  (k <= n)%nat /\
  (Ascii.eqb prev "_" = true -> k < n)%nat.
Proof.
  revert prev acc k. induction s as [|a s IH]; intros prev acc k; cbn [int_digits].
  - destruct (Ascii.eqb prev "_"); [discriminate|].
    intros [= <- <-] H. repeat split; (lia || discriminate).
  - destruct (is_digit a) eqn:Hd.
    + intros H Hacc. apply is_digit_value in Hd.
      apply IH in H as (Hv & Hk & _).
      * repeat split; lia.
      * rewrite Nat2Z.inj_succ, Z.pow_succ_r by lia. lia.
    + destruct (Ascii.eqb a "_") eqn:Hu; [|discriminate].
      destruct (Ascii.eqb prev "_") eqn:Hp; [discriminate|].
      intros H Hacc. apply IH in H as (Hv & Hk & Hlt); [|assumption].
      repeat split; (lia || discriminate).
Qed.

Lemma lstrip_head (f : ascii -> bool) (a : ascii) (s : string) :
  f a = false -> Str.lstrip f (String a s) = String a s.
Proof. intros H. cbn [Str.lstrip]. now rewrite H. Qed.

Lemma rstrip_all_digits (s : string) :
  all_digits s = true -> Str.rstrip int_space s = s.
Proof.
  induction s as [|a s IH]; [reflexivity|].
  cbn [all_digits Str.rstrip]. intros H. apply andb_true_iff in H as [Hd Ha].
  rewrite (IH Ha). destruct (is_digit_plain _ Hd) as (_ & -> & _).
  now destruct s.
Qed.

Lemma all_digits_no_colon (s : string) :
  all_digits s = true -> Str.contains s ":" = false.
Proof.
  induction s as [|a s IH]; [reflexivity|].
  cbn [all_digits Str.contains]. intros H. apply andb_true_iff in H as [Hd Ha].
  destruct (is_digit_plain _ Hd) as (_ & _ & -> & _). now rewrite IH.
Qed.

Lemma int_of_digits (t : string) (a : ascii) (r : string) :
  Str.rstrip int_space (Str.lstrip int_space t) = String a r ->
  is_digit a = true ->
  int t = match int_digits (String a r) "_" 0 0 with
          | Some (v, n) =>
              if (int_max_str_digits <? n)%nat then raise ValueError
              else mret (1 * v)%Z
          | None => raise ValueError
          end.
Proof.
  intros H Hd. unfold int. rewrite H.
  destruct a as [[] [] [] [] [] [] [] []]; vm_compute in Hd;
    (discriminate Hd || reflexivity).
Qed.

Lemma int_of_minus (t r : string) :
  Str.rstrip int_space (Str.lstrip int_space t) = String "-" r ->
  int t = match int_digits r "_" 0 0 with
          | Some (v, n) =>
              if (int_max_str_digits <? n)%nat then raise ValueError
              else mret (-1 * v)%Z
          | None => raise ValueError
          end.
Proof. intros H. unfold int. now rewrite H. Qed.

Lemma int_inr (s : string) (z : Z) :
  int s = inr z ->
  exists v n,
    (z = v \/ z = - v)%Z /\
    (0 <= v < 10 ^ Z.of_nat n)%Z /\
    (1 <= n <= int_max_str_digits)%nat.
Proof.
  unfold int. set (s0 := Str.rstrip int_space (Str.lstrip int_space s)).
  assert (exists sign s',
             match s0 with
             | String "+" r => (1%Z, r)
             | String "-" r => ((-1)%Z, r)
             | _ => (1%Z, s0)
             end = (sign, s') /\ (sign = 1 \/ sign = -1)%Z)
    as (sign & s' & -> & Hsign).
  { destruct s0 as [|a r]; [eauto|].
    destruct a as [[] [] [] [] [] [] [] []]; eauto. }
  destruct (int_digits s' "_" 0 0) as [[v n]|] eqn:E; [|discriminate].
  destruct (int_max_str_digits <? n)%nat eqn:El; [discriminate|].
  intros [= <-]. apply Nat.ltb_ge in El.
  apply int_digits_bound in E as (Hv & _ & Hn); [|cbn; lia].
  specialize (Hn eq_refl). exists v, n.
  repeat split; lia.
Qed.

Lemma str_int_inr (z : Z) (t : string) :
  str_int z = inr t ->
  exists digits,
    t = (if (z <? 0)%Z then String "-" digits else digits) /\
    all_digits digits = true /\
    digits_value digits 0 = Z.abs z /\
    (String.length digits <= int_max_str_digits)%nat /\
    exists a r, digits = String a r.
Proof.
  unfold str_int.
  destruct (int_max_str_digits <? String.length (str_nat (Z.abs z)))%nat eqn:El;
    [discriminate|].
  intros [= <-]. apply Nat.ltb_ge in El.
  destruct (str_nat_spec (Z.abs z) (Z.abs_nonneg z)) as (Ha & Hv & Hne).
  exists (str_nat (Z.abs z)). auto.
Qed.

(** Printing an integer and reading it back gives the integer. *)
Lemma int_str_int (z : Z) (t : string) :
  str_int z = inr t -> int t = inr z.
Proof.
  intros H. apply str_int_inr in H as (digits & -> & Ha & Hv & Hl & a & r & Hd).
  assert (int_digits digits "_" 0 0 = Some (Z.abs z, String.length digits)) as Hi.
  { rewrite int_digits_all_digits, Hv; [reflexivity | assumption |].
    left. rewrite Hd. discriminate. }
  apply Nat.ltb_ge in Hl.
  pose proof (rstrip_all_digits _ Ha) as Hr.
  destruct (z <? 0)%Z eqn:Ez.
  - rewrite (int_of_minus _ digits).
    + rewrite Hi, Hl. apply Z.ltb_lt in Ez.
      unfold mret, Result_ret. f_equal. lia.
    + rewrite lstrip_head by reflexivity. cbn [Str.rstrip]. rewrite Hr, Hd.
      reflexivity.
  - subst digits. cbn [all_digits] in Ha. apply andb_true_iff in Ha as [Hda Ha].
    rewrite (int_of_digits _ a r).
    + rewrite Hi, Hl. apply Z.ltb_ge in Ez.
      unfold mret, Result_ret. f_equal. lia.
    + rewrite lstrip_head by now apply is_digit_plain.
      exact Hr.
    + exact Hda.
Qed.

(** An integer that [int] has read can be printed: it has no more digits
    than the text it came from. *)
Lemma str_int_of_int (s : string) (z : Z) :
  int s = inr z -> exists t, str_int z = inr t.
Proof.
  intros H. apply int_inr in H as (v & n & Hz & Hv & Hn).
  unfold str_int. assert (Z.abs z = v) as -> by lia.
  pose proof (str_nat_length v n Hv ltac:(lia)) as Hl.
  destruct (int_max_str_digits <? String.length (str_nat v))%nat eqn:El;
    [apply Nat.ltb_lt in El; lia | eauto].
Qed.

(** ** ServerConfig.__str__ and ServerConfig.__repr__ *)

Lemma rpartition_absent (s : string) (c : ascii) :
  Str.contains s c = false -> Str.rpartition s c = ("", false, s).
Proof.
  induction s as [|a s IH]; [reflexivity|].
  cbn [Str.contains Str.rpartition]. intros H.
  apply orb_false_iff in H as [Ha Hs]. now rewrite (IH Hs), Ha.
Qed.

Lemma rpartition_append (h p : string) (c : ascii) :
  Str.contains p c = false ->
  Str.rpartition (h +:+ String c p) c = (h, true, p).
Proof.
  intros Hp. induction h as [|a h IH].
  - change ("" +:+ String c p) with (String c p). cbn [Str.rpartition].
    now rewrite (rpartition_absent _ _ Hp), Ascii.eqb_refl.
  - rewrite append_String. cbn [Str.rpartition]. now rewrite IH.
Qed.

Lemma str_int_no_colon (z : Z) (t : string) :
  str_int z = inr t -> Str.contains t ":" = false.
Proof.
  intros H. apply str_int_inr in H as (digits & -> & Ha & _).
  apply all_digits_no_colon in Ha.
  destruct (z <? 0)%Z; [cbn [Str.contains]; now rewrite Ha | exact Ha].
Qed.

Lemma str_int_error (z : Z) :
  (exists e, str_int z = inl e) <->
  (10 ^ Z.of_nat int_max_str_digits <= Z.abs z)%Z.
Proof.
  unfold str_int.
  destruct (str_nat_spec (Z.abs z) (Z.abs_nonneg z)) as (Ha & Hv & a & r & Hd).
  assert (int_digits (str_nat (Z.abs z)) "_" 0 0
          = Some (Z.abs z, String.length (str_nat (Z.abs z)))) as Hi.
  { rewrite int_digits_all_digits, Hv; [reflexivity | assumption |].
    left. rewrite Hd. discriminate. }
  apply int_digits_bound in Hi as (Hup & _); [|cbn; lia].
  destruct (int_max_str_digits <? String.length (str_nat (Z.abs z)))%nat eqn:El.
  - apply Nat.ltb_lt in El. split; [intros _|eauto].
    destruct (Z.eq_dec (Z.abs z) 0%Z) as [Hz|Hz].
    { rewrite Hz in El. change (String.length (str_nat 0)) with 1%nat in El.
      unfold int_max_str_digits in El. lia. }
    destruct (str_digits_length (S (Z.to_nat (Z.log2 (Z.abs z)))) (Z.abs z) "")
      as (j & Hl & Hj).
    { pose proof (str_nat_fuel (Z.abs z) (Z.abs_nonneg z)). lia. }
    unfold str_nat in El. rewrite Hl in El. cbn [String.length] in El.
    etransitivity; [|exact Hj].
    apply Z.pow_le_mono_r; lia.
  - apply Nat.ltb_ge in El. split; [intros [e He]; discriminate|].
    intros H. exfalso.
    assert (10 ^ Z.of_nat (String.length (str_nat (Z.abs z)))
            <= 10 ^ Z.of_nat int_max_str_digits)%Z
      by (apply Z.pow_le_mono_r; lia).
    lia.
Qed.

(** X19. [__str__] prints the hostname, a colon and the port in decimal:
    splitting the text at its last colon gives the hostname back, and
    [int] reads the rest as the port. *)
Theorem __str___splits (self : ServerConfig) (t : string) :
  __str__ self = inr t ->
  exists p,
    t = hostname self +:+ ":" +:+ p /\
    Str.rpartition t ":" = (hostname self, true, p) /\
    int p = inr (port self).
Proof.
  unfold __str__. destruct (str_int (port self)) as [e|p] eqn:E; [discriminate|].
  intros [= <-]. exists p. split; [reflexivity|]. split.
  - apply rpartition_append. now apply str_int_no_colon in E.
  - now apply int_str_int.
Qed.

Lemma __repr___port (self : ServerConfig) :
  match str_int (port self) with
  | inl e => __repr__ self = inl e
  | inr _ => exists r, __repr__ self = inr r
  end.
Proof.
  unfold __repr__, __slots__. cbn [format_slots].
  change (format_slot self "protocol") with (inr (B:=string) (A:=exception) (default "None" (protocol self))).
  change (format_slot self "hostname") with (inr (A:=exception) (hostname self)).
  change (format_slot self "port") with (str_int (port self)).
  change (format_slot self "socket_type") with (inr (A:=exception) (socket_type self)).
  change (format_slot self "authentication") with (inr (A:=exception) (authentication self)).
  change (format_slot self "username") with (inr (A:=exception) (username self)).
  cbn [mbind Result_bind mret Result_ret].
  destruct (str_int (port self)) as [e|p]; cbn [mbind Result_bind mret Result_ret];
    eauto.
Qed.

(** X20. [__str__] and [__repr__] raise, with [ValueError], exactly when
    the port has more than 4300 decimal digits; the other fields never
    make them fail. *)
Theorem __str___error (self : ServerConfig) :
  ((exists e, __str__ self = inl e) <->
   (10 ^ Z.of_nat int_max_str_digits <= Z.abs (port self))%Z) /\
  ((exists e, __repr__ self = inl e) <->
   (10 ^ Z.of_nat int_max_str_digits <= Z.abs (port self))%Z) /\
  (forall e, __str__ self = inl e \/ __repr__ self = inl e ->
             e = LibraryError ValueError).
Proof.
  rewrite <- (str_int_error (port self)).
  pose proof (__repr___port self) as Hr.
  assert (forall e, str_int (port self) = inl e -> e = LibraryError ValueError)
    as Hve.
  { unfold str_int. intros e. destruct (_ <? _)%nat; [|discriminate].
    now intros [= <-]. }
  unfold __str__.
  destruct (str_int (port self)) as [e|p] eqn:E;
    cbn [mbind Result_bind mret Result_ret].
  - rewrite Hr. specialize (Hve e eq_refl). subst e.
    repeat split; eauto. intros e' [H|H]; congruence.
  - destruct Hr as [r Hr]. rewrite Hr.
    repeat split; try (intros [? ?]; discriminate).
    intros e' [H|H]; discriminate.
Qed.

Lemma parse_server_port (attr : Element) (s : ServerConfig) :
  parse_server attr = inr s -> exists txt, int txt = inr (port s).
Proof.
  unfold parse_server. rewrite !read_field.
  destruct (child_elements attr "hostname") as [|h [|? ?]]; try discriminate.
  destruct (child_elements attr "port") as [|p [|? ?]]; try discriminate.
  cbn [mbind Result_bind].
  destruct (int (cdata p)) as [e|z] eqn:Ei; try discriminate.
  destruct (child_elements attr "socketType") as [|st [|? ?]]; try discriminate.
  destruct (child_elements attr "authentication") as [|au [|? ?]]; try discriminate.
  destruct (child_elements attr "username") as [|u [|? ?]]; try discriminate.
  intros [= <-]. eauto.
Qed.

Lemma parsed_server_prints (attr : Element) (s : ServerConfig) :
  reads attr s -> exists t r, __str__ s = inr t /\ __repr__ s = inr r.
Proof.
  intros H. apply parse_server_port in H as [txt Hi].
  apply str_int_of_int in Hi as [p Hp].
  pose proof (__repr___port s) as Hr. unfold __str__. rewrite Hp in *.
  destruct Hr as [r Hr]. eauto.
Qed.

Section Printing.

Variable ip : string -> bool.
Variable requests_get : string -> library_error + Response.
Variable os_path : string -> path_kind.
Variable untangle_parse : string -> library_error + Element.

(** X21. Every entry of a constructed [ClientConfig] can be printed:
    [__str__] and [__repr__] return for it, the port read from the
    document staying under the digit limit of [str]. *)
Theorem configs_print
        (d : string) (log log' : list string) (self : ClientConfig) :
  __init__ ip requests_get os_path untangle_parse d log = (inr self, log') ->
  Forall (fun s => exists t r, __str__ s = inr t /\ __repr__ s = inr r)
         (configs self).
Proof.
  intros H. apply __init___configs in H as (root & _ & HF).
  induction HF as [|attr s l l' Hs HF IH]; constructor; [|exact IH].
  now apply (parsed_server_prints attr).
Qed.

End Printing.

(** ** The further properties on the example database *)

Lemma get_config_query_case_witness :
  Str.lower "IMAP" = Str.lower "imap" /\
  get_config Example.ip_address_is_v6 Example.requests_get Example.os_path Example.untangle_parse
             "example.com" "IMAP" []
  = get_config Example.ip_address_is_v6 Example.requests_get Example.os_path Example.untangle_parse
               "example.com" "imap" [].
Proof.
  split; [reflexivity|].
  exact (proj1 (get_config_query_case
                  Example.ip_address_is_v6 Example.requests_get
                  Example.os_path Example.untangle_parse "example.com" "IMAP" "imap" [] eq_refl)).
Defined.

Lemma get_config_in_get_configs_witness :
  get_config Example.ip_address_is_v6 Example.requests_get Example.os_path Example.untangle_parse
             "example.com" "imap" []
  = (inr (Some Example.imap_config), [config_url "example.com"]) /\
  exists cfgs,
    get_configs Example.ip_address_is_v6 Example.requests_get
                Example.os_path Example.untangle_parse "example.com" []
    = (inr cfgs, [config_url "example.com"]) /\
    In Example.imap_config cfgs.
Proof.
  assert (get_config Example.ip_address_is_v6 Example.requests_get
                     Example.os_path Example.untangle_parse "example.com" "imap" []
          = (inr (Some Example.imap_config), [config_url "example.com"])) as H
      by (vm_compute; reflexivity).
  split; [exact H|].
  exact (get_config_in_get_configs _ _ _ _ _ _ _ _ _ H).
Defined.

Lemma __init___fields_witness :
  fix_url Example.ip_address_is_v6 "example.com"
  = inr (domain Example.mail_client) /\
  xml Example.mail_client <> "".
Proof.
  destruct (__init___fields _ _ _ _ _ _ _ _ mail_resolves) as (H1 & H2 & _).
  split; assumption.
Defined.

Lemma __init___again_witness :
  __init__ Example.ip_address_is_v6 Example.requests_get Example.os_path Example.untangle_parse
           (domain Example.mail_client) []
  = (inr Example.mail_client, [config_url "example.com"]).
Proof. exact (__init___again _ _ _ _ _ _ _ _ mail_resolves). Defined.

Lemma __init___config_count_witness :
  exists root cc ep,
    Example.untangle_parse (xml Example.mail_client) = inr root /\
    child_elements root "clientConfig" = [cc] /\
    child_elements cc "emailProvider" = [ep] /\
    length (configs Example.mail_client)
    = (length (child_elements ep "incomingServer")
       + length (child_elements ep "outgoingServer"))%nat.
Proof.
  destruct (__init___config_count _ _ _ _ _ _ _ _ mail_resolves)
    as (root & cc & ep & H1 & H2 & H3 & _ & _ & _ & H4).
  exists root, cc, ep. auto.
Defined.

Lemma __init___message_witness :
  (__init__ Example.ip_address_is_v6 Example.requests_get Example.os_path Example.untangle_parse
            "http://nothing.example/mail" []).1
  = inl (Exception "No configuration file found for 'http://nothing.example/mail'") /\
  "No configuration file found for 'http://nothing.example/mail'"
  = "No configuration file found for '" +:+ "http://nothing.example/mail" +:+ "'".
Proof.
  assert ((__init__ Example.ip_address_is_v6 Example.requests_get
                    Example.os_path Example.untangle_parse "http://nothing.example/mail" []).1
          = inl (Exception "No configuration file found for 'http://nothing.example/mail'"))
    as H by (vm_compute; reflexivity).
  split; [exact H|]. exact (__init___message _ _ _ _ _ _ _ H).
Defined.

Lemma __init___transport_error_witness :
  __init__ Example.ip_address_is_v6 offline Example.os_path Example.untangle_parse "example.com" []
  = (inl (LibraryError RequestException), [config_url "example.com"]).
Proof.
  exact (__init___transport_error
           Example.ip_address_is_v6 offline Example.os_path Example.untangle_parse
           "example.com" "example.com" RequestException [] eq_refl eq_refl).
Defined.

Lemma parse_server_fields_witness :
  parse_server Example.smtp = inr Example.smtp_config /\
  protocol Example.smtp_config = get_attribute Example.smtp "type".
Proof.
  assert (parse_server Example.smtp = inr Example.smtp_config) as H
      by (vm_compute; reflexivity).
  split; [exact H|]. exact (proj1 (parse_server_fields _ _ H)).
Defined.

Lemma parse_server_errors_witness :
  parse_server portless = inl (LibraryError AttributeError) /\
  ((LibraryError AttributeError = LibraryError AttributeError /\
    forallb (single portless) server_fields = false) \/
   (LibraryError AttributeError = LibraryError ValueError /\
    exists h p,
      child_elements portless "hostname" = [h] /\
      child_elements portless "port" = [p] /\
      int (cdata p) = raise ValueError)).
Proof.
  assert (parse_server portless = inl (LibraryError AttributeError)) as H
      by (vm_compute; reflexivity).
  split; [exact H|]. exact (parse_server_errors _ _ H).
Defined.

Lemma parse_servers_first_error_witness :
  parse_servers [Example.smtp; portless; Example.smtp] []
  = inl (LibraryError AttributeError) /\
  exists l1 attr l2 done,
    [Example.smtp; portless; Example.smtp] = (l1 ++ attr :: l2)%list /\
    Forall2 reads l1 done /\
    parse_server attr = inl (LibraryError AttributeError).
Proof.
  assert (parse_servers [Example.smtp; portless; Example.smtp] []
          = inl (LibraryError AttributeError)) as H by (vm_compute; reflexivity).
  split; [exact H|]. exact (parse_servers_first_error _ _ _ H).
Defined.

Lemma parse_config_several_providers_witness :
  parse_config (parse_as two_providers) "<clientConfig/>" = raise TypeError.
Proof.
  apply (parse_config_several_providers
           (parse_as two_providers) "<clientConfig/>" two_providers
           (mkElement (Some "clientConfig") ∅
              [Example.provider [Example.smtp]; Example.provider [Example.smtp]] "")).
  - reflexivity.
  - vm_compute. reflexivity.
  - vm_compute. lia.
Defined.

Lemma fix_url_ignores_path_witness :
  is_delim "?" = true /\
  fix_url Example.ip_address_is_v6 "http://example.com?x=1"
  = fix_url Example.ip_address_is_v6 "http://example.com".
Proof.
  split; [reflexivity|].
  exact (proj1 (fix_url_ignores_path
                  Example.ip_address_is_v6 "example.com" "x=1" "?" eq_refl)).
Defined.

Lemma fix_url_no_line_break_witness :
  fix_url Example.ip_address_is_v6 ("exa" +:+ String (ascii_of_N 10) "mple.com")
  = inr "example.com" /\
  Str.contains "example.com" (ascii_of_N 10) = false.
Proof.
  assert (fix_url Example.ip_address_is_v6
                  ("exa" +:+ String (ascii_of_N 10) "mple.com")
          = inr "example.com") as H by (vm_compute; reflexivity).
  split; [exact H|].
  exact (proj2 (proj2 (fix_url_no_line_break _ _ _ H))).
Defined.

Lemma fix_url_error_witness :
  fix_url Example.ip_address_is_v6 "[example.com"
  = inl (LibraryError ValueError) /\
  (Str.contains "[example.com" "[" || Str.contains "[example.com" "]") = true.
Proof.
  assert (fix_url Example.ip_address_is_v6 "[example.com"
          = inl (LibraryError ValueError)) as H by (vm_compute; reflexivity).
  split; [exact H|]. exact (proj2 (fix_url_error _ _ _ H)).
Defined.

Lemma __str___splits_witness :
  __str__ Example.imap_config = inr "imap.example.com:993" /\
  exists p,
    "imap.example.com:993" = hostname Example.imap_config +:+ ":" +:+ p /\
    Str.rpartition "imap.example.com:993" ":"
    = (hostname Example.imap_config, true, p) /\
    int p = inr (port Example.imap_config).
Proof.
  assert (__str__ Example.imap_config = inr "imap.example.com:993") as H
      by (vm_compute; reflexivity).
  split; [exact H|]. exact (__str___splits _ _ H).
Defined.

Lemma configs_print_witness :
  Forall (fun s => exists t r, __str__ s = inr t /\ __repr__ s = inr r)
         (configs Example.mail_client).
Proof. exact (configs_print _ _ _ _ _ _ _ _ mail_resolves). Defined.

(** A body that is a URL is opened by [untangle.parse], after the request
    for the domain. *)
Lemma __init___one_request_witness :
  (__init__ Example.ip_address_is_v6 serves_url Example.os_path
            Example.untangle_parse "example.com" []).2
  = [config_url "example.com"; url_body].
Proof.
  rewrite (proj1 (__init___one_request
                    Example.ip_address_is_v6 serves_url Example.os_path
                    Example.untangle_parse "example.com" [])).
  vm_compute. reflexivity.
Defined.
